(** * tedfetch: the talk parser (package [parser]) in Rocq

    A shallow embedding of [internal/parser/parser.go]: URL validation and
    slug extraction, the structured-API (GraphQL) path, the markup fallback
    path with its embedded-script and subtitle-anchor extractors, and the
    listing search. The retrying downloader of [internal/downloader] and
    the download command of [cmd] follow the parser.

    Conventions of the embedding.
    - Go strings are byte strings: [string] of the Standard Library.
    - Go [int] indices are [Z]; [strings.Index] answers [-1] when absent.
    - A Go [map[string]string] that may be [nil] is an
      [option (gmap string string)]; [None] is the nil map.
    - The remote site and the decoders of [encoding/json] and [goquery]
      lie outside the repository. A reply carries its body as those
      decoders show it, and the JSON decoder that [extractVideoURLs]
      applies to a piece of script text is a field of the environment
      record [Env], which every function that needs it takes.
    - [strings.ToLower] and [strings.TrimSpace] are modelled on ASCII
      text; the general theorems below hold whatever these two compute.
    - Network calls are threaded through a state that logs every call
      made to the HTTP client and every line written to standard output.
    - A run-time panic (an out-of-range slice or index expression) is an
      outcome of its own, distinct from a returned [error].
    - Debug printing and raw-response capture ([debugPrint],
      [storeRawResponse]) do not influence any returned value and are left
      out. *)

From Stdlib Require Import ZArith Lia Bool Ascii String List.
From stdpp Require Import base option list strings gmap fin_maps.

Local Open Scope string_scope.
Local Open Scope Z_scope.

(* ===================================================================== *)
(** * Package [strings] of the Go standard library, on byte strings      *)
(* ===================================================================== *)

Module GoStrings.

(** [len(s)] *)
Definition len (s : string) : Z := Z.of_nat (String.length s).

(** [strings.HasPrefix(s, prefix)] *)
Definition HasPrefix (s pre : string) : bool := String.prefix pre s.

(** Position of the first occurrence of [sub] in [s], if any. *)
Fixpoint index_nat (s sub : string) : option nat :=
  if String.prefix sub s then Some O
  else match s with
       | EmptyString => None
       | String _ s' => option_map S (index_nat s' sub)
       end.

(** Position of the last occurrence of [sub] in [s], if any. *)
Fixpoint last_index_nat (s sub : string) : option nat :=
  match s with
  | EmptyString => if String.prefix sub EmptyString then Some O else None
  | String _ s' =>
      match last_index_nat s' sub with
      | Some i => Some (S i)
      | None => if String.prefix sub s then Some O else None
      end
  end.

(** [strings.Index(s, substr)]: first index, or [-1]. *)
Definition Index (s sub : string) : Z :=
  match index_nat s sub with Some i => Z.of_nat i | None => -1 end.

(** [strings.LastIndex(s, substr)]: last index, or [-1]. *)
Definition LastIndex (s sub : string) : Z :=
  match last_index_nat s sub with Some i => Z.of_nat i | None => -1 end.

(** [strings.Contains(s, substr)], which Go defines as
    [Index(s, substr) >= 0]. *)
Definition Contains (s sub : string) : bool := 0 <=? Index s sub.

(** The suffix [s[n:]] for [n <= len(s)]. *)
Fixpoint drop_str (n : nat) (s : string) : string :=
  match n, s with
  | O, _ => s
  | S n', String _ s' => drop_str n' s'
  | S _, EmptyString => EmptyString
  end.

(** The slice expression [s[lo:hi]] of Go. It panics (here: [None])
    unless [0 <= lo <= hi <= len(s)]. *)
Definition slice (s : string) (lo hi : Z) : option string :=
  if (0 <=? lo) && (lo <=? hi) && (hi <=? len s)
  then Some (String.substring (Z.to_nat lo) (Z.to_nat (hi - lo)) s)
  else None.

(** The loop of [strings.genSplit] for a non-empty separator: cut at the
    first occurrence of [sep], at most [cuts] times. *)
Fixpoint genSplit (cuts : nat) (s sep : string) : list string :=
  match cuts with
  | O => [s]
  | S k =>
      match index_nat s sep with
      | None => [s]
      | Some m =>
          String.substring 0 m s
            :: genSplit k (drop_str (m + String.length sep) s) sep
      end
  end.

(** [strings.Split(s, sep)] for [sep <> ""]: a string of length [n] holds
    at most [n] occurrences of a non-empty separator. *)
Definition Split (s sep : string) : list string :=
  genSplit (String.length s) s sep.

(** [strings.SplitN(s, sep, n)] for [sep <> ""]: [nil] for [n = 0], all
    pieces for [n < 0], otherwise at most [n] pieces. *)
Definition SplitN (s sep : string) (n : Z) : list string :=
  if n =? 0 then []
  else if n <? 0 then Split s sep
  else genSplit (Z.to_nat (n - 1)) s sep.

(** The loop of [strings.Replace] for a non-empty [old]. *)
Fixpoint replace_loop (fuel : nat) (s old new : string) : string :=
  match fuel with
  | O => s
  | S k =>
      match index_nat s old with
      | None => s
      | Some m =>
          String.substring 0 m s +:+ new
            +:+ replace_loop k (drop_str (m + String.length old) s) old new
      end
  end.

(** [strings.ReplaceAll(s, old, new)] for [old <> ""]. *)
Definition ReplaceAll (s old new : string) : string :=
  replace_loop (String.length s) s old new.

(** Lower-casing of one byte; only the ASCII letters [A]-[Z] move. *)
Definition lower_byte (c : ascii) : ascii :=
  let n := nat_of_ascii c in
  if (65 <=? n)%nat && (n <=? 90)%nat then ascii_of_nat (n + 32) else c.

Fixpoint map_str (f : ascii -> ascii) (s : string) : string :=
  match s with
  | EmptyString => EmptyString
  | String c s' => String (f c) (map_str f s')
  end.

(** [strings.ToLower(s)] on ASCII text (bytes above 127 are kept). *)
Definition ToLower (s : string) : string := map_str lower_byte s.

(** ASCII white space as [unicode.IsSpace] sees it: tab, line feed,
    vertical tab, form feed, carriage return and space. *)
Definition is_space (c : ascii) : bool :=
  let n := nat_of_ascii c in
  ((9 <=? n)%nat && (n <=? 13)%nat) || (n =? 32)%nat.

Fixpoint trim_left (s : string) : string :=
  match s with
  | String c s' => if is_space c then trim_left s' else s
  | EmptyString => EmptyString
  end.

Fixpoint trim_right (s : string) : string :=
  match s with
  | EmptyString => EmptyString
  | String c s' =>
      match trim_right s' with
      | EmptyString => if is_space c then EmptyString else String c EmptyString
      | r => String c r
      end
  end.

(** [strings.TrimSpace(s)] on ASCII text. *)
Definition TrimSpace (s : string) : string := trim_right (trim_left s).

End GoStrings.
Import GoStrings.

(* ===================================================================== *)
(** * Data model                                                         *)
(* ===================================================================== *)

(** [type VideoFormat struct] *)
Record VideoFormat := mkVideoFormat {
  Quality : string;
  vfURL : string;
  Size : Z
}.

(** [type Talk struct]. The two maps are [nil] in a fresh [Talk{}]. *)
Record Talk := mkTalk {
  Title : string;
  Speaker : string;
  URL : string;
  Description : string;
  Duration : string;
  PublishedDate : string;
  Views : string;
  VideoURLs : option (gmap string string);
  VideoFormats : list VideoFormat;
  SubtitleURLs : option (gmap string string)
}.

(** [Talk{Title: title, Speaker: speaker, URL: url}] *)
Definition newTalk (title speaker url : string) : Talk :=
  mkTalk title speaker url "" "" "" "" None [] None.

Definition set_Title (t : Talk) (v : string) : Talk :=
  mkTalk v (Speaker t) (URL t) (Description t) (Duration t)
         (PublishedDate t) (Views t) (VideoURLs t) (VideoFormats t)
         (SubtitleURLs t).

Definition set_Speaker (t : Talk) (v : string) : Talk :=
  mkTalk (Title t) v (URL t) (Description t) (Duration t)
         (PublishedDate t) (Views t) (VideoURLs t) (VideoFormats t)
         (SubtitleURLs t).

Definition set_VideoURLs (t : Talk) (v : option (gmap string string)) : Talk :=
  mkTalk (Title t) (Speaker t) (URL t) (Description t) (Duration t)
         (PublishedDate t) (Views t) v (VideoFormats t) (SubtitleURLs t).

Definition set_VideoFormats (t : Talk) (v : list VideoFormat) : Talk :=
  mkTalk (Title t) (Speaker t) (URL t) (Description t) (Duration t)
         (PublishedDate t) (Views t) (VideoURLs t) v (SubtitleURLs t).

Definition set_SubtitleURLs (t : Talk) (v : option (gmap string string)) : Talk :=
  mkTalk (Title t) (Speaker t) (URL t) (Description t) (Duration t)
         (PublishedDate t) (Views t) (VideoURLs t) (VideoFormats t) v.

(** [len(m)] of a Go map; the nil map has length 0. *)
Definition maplen (m : option (gmap string string)) : Z :=
  match m with
  | None => 0
  | Some m => Z.of_nat (size m)
  end.

(** [m[k] = v] on a map known to be allocated ([make] was called). A
    write to the nil map would panic; no call site below can reach it. *)
Definition mapset (k v : string) (m : gmap string string) : gmap string string :=
  <[k := v]> m.

(** [type Parser struct]: the fields that steer the computation. *)
Record Parser := mkParser {
  GraphqlURL : string;
  Debug : bool
}.

(** [var baseURL] *)
Definition baseURL : string := "https://www.ted.com".

(** [func New() *Parser] *)
Definition New : Parser := mkParser "https://www.ted.com/graphql" false.

(** The errors the package builds with [fmt.Errorf], one constructor per
    message; a wrapped transport error keeps its text as [cause]. *)
Inductive error :=
| ErrInvalidURL                          (* invalid TED talk URL *)
| ErrFetchTalksList (cause : string)     (* failed to fetch talks list *)
| ErrParseHTML                           (* failed to parse HTML *)
| ErrFetchTalkPage (cause : string)      (* failed to fetch talk page *)
| ErrParseTalkPage                       (* failed to parse talk page *)
| ErrSendRequest (cause : string)        (* failed to send request *)
| ErrReadResponse                        (* failed to read response *)
| ErrDecodeResponse                      (* failed to decode response *)
| ErrGraphQL (message : string)          (* GraphQL error: ... *)
| ErrNoVideoData                         (* no video data found *)
| ErrReadHTMLResponse                    (* failed to read HTML response *)
| ErrNoVideoOrSubtitle.                  (* no video or subtitle data found *)

(** A Go result pair [(T, error)] with exactly one side set. *)
Inductive result (T : Type) :=
| Ok (t : T)
| Fail (e : error).
Arguments Ok {T} t.
Arguments Fail {T} e.

(* --------------------------------------------------------------------- *)
(** ** Documents as [goquery] shows them                                 *)
(* --------------------------------------------------------------------- *)

(** One element of a selection: its text content and its [href]. *)
Record Element := mkElement {
  elemText : string;
  elemHref : option string
}.

(** [Selection.Text()]: the texts of all elements, concatenated. *)
Definition Text (sel : list Element) : string :=
  fold_right (fun e acc => elemText e +:+ acc) "" sel.

(** [Selection.Attr("href")]: the attribute of the first element. *)
Definition AttrHref (sel : list Element) : string * bool :=
  match sel with
  | e :: _ => match elemHref e with
              | Some h => (h, true)
              | None => ("", false)
              end
  | [] => ("", false)
  end.

(** An [a[data-language]] element. *)
Record Anchor := mkAnchor {
  dataLanguage : string;
  href : option string
}.

(** A [.media__message] or [.search__result] block of a listing page. *)
Record ListingEntry := mkListingEntry {
  isSearchResult : bool;             (* s.HasClass("search__result") *)
  h3Links : list Element;            (* s.Find("h3 a") *)
  titleLinks : list Element;         (* s.Find(".media__message__title a") *)
  speakerText : string               (* text of the speaker selection *)
}.

(** What the selectors used by the parser find in a page, each list in
    document order. *)
Record Document := mkDocument {
  scripts : list string;             (* text of every <script> *)
  h1 : list string;                  (* text of every <h1> *)
  h2 : list string;                  (* text of every <h2> *)
  langAnchors : list Anchor;         (* every a[data-language] *)
  listing : list ListingEntry        (* .media__message, .search__result *)
}.

(** [doc.Find(sel).First().Text()]: empty on an empty selection. *)
Definition FirstText (texts : list string) : string :=
  match texts with
  | t :: _ => t
  | [] => ""
  end.

(* --------------------------------------------------------------------- *)
(** ** Decoded JSON shapes                                               *)
(* --------------------------------------------------------------------- *)

(** Entry of [playerData.talks[].player_talks[].resources.h264]. *)
Record H264 := mkH264 {
  hQuality : string;                 (* json:"quality" *)
  hSize : Z;                         (* json:"size" *)
  hURL : string                      (* json:"file" *)
}.

Record PlayerTalk := mkPlayerTalk { Resources_H264 : list H264 }.
Record PlayerDataTalk := mkPlayerDataTalk { PlayerTalks : list PlayerTalk }.

(** The anonymous struct [data] of [extractVideoURLs]. *)
Record PageData := mkPageData { PlayerData_Talks : list PlayerDataTalk }.

Record NativeDownloads := mkNativeDownloads {
  nLow : string; nMedium : string; nHigh : string
}.

Record SubtitledDownload := mkSubtitledDownload {
  Low : string;
  High : string;
  InternalLanguageCode : string;
  LanguageName : string
}.

Record Node := mkNode {
  Native : NativeDownloads;
  SubtitledDownloads : list SubtitledDownload
}.

Record GraphQLError := mkGraphQLError { Message : string }.

(** The anonymous struct [result] of [parseWithGraphQL]. *)
Record GraphQLResult := mkGraphQLResult {
  Nodes : list Node;                 (* data.videos.nodes *)
  Errors : list GraphQLError         (* errors *)
}.

(* ===================================================================== *)
(** * The outside world and the effects of a call                        *)
(* ===================================================================== *)

(** The three request sites of the package. *)
Inductive Request :=
| ClientGet (url : string)                       (* p.client.Get(url) *)
| HttpGet (url : string)                         (* http.Get(url) *)
| GraphQLPost (endpoint slug referer : string).  (* p.client.Do(req) *)

(** The body of a response, as the reading and decoding steps that follow
    the request find it. *)
Inductive Body (A : Type) :=
| Unreadable                       (* reading the body fails *)
| Malformed                        (* the bytes do not decode *)
| Decoded (a : A).
Arguments Unreadable {A}.
Arguments Malformed {A}.
Arguments Decoded {A} a.

(** What a request comes back with. [net/http] reports a transport
    failure as an error; a response of any status code is not an error. *)
Inductive Reply (A : Type) :=
| TransportError (cause : string)
| Response (status : Z) (body : Body A).
Arguments TransportError {A} cause.
Arguments Response {A} status body.

(** Everything the package calls but does not define. The site answers a
    request as a function of the whole request history, newest first, so
    that two fetches of one URL may differ. [unmarshalPage] is
    [json.Unmarshal] into the struct [data] of [extractVideoURLs]; [None]
    is a decoding error. [refused] tells, for a request that ends in an
    error, whether the error comes with a response: [net/http] hands back
    a non-nil response beside an error only when a redirect is refused,
    its body already closed, and a nil response beside every other
    error. *)
Record Env := mkEnv {
  unmarshalPage : string -> option PageData;
  servePage : list Request -> Reply Document;
  serveGraphQL : list Request -> Reply GraphQLResult;
  refused : list Request -> bool
}.

(** Lines written to standard output. *)
Inductive Line :=
| Warning (url : string) (e : error).  (* Warning: failed to parse talk details for ... *)

(** [requests] holds the calls made to the HTTP client, whether or not
    the client puts them on the wire: it answers a URL it cannot parse
    with an error of its own. *)
Record State := mkState {
  requests : list Request;           (* newest first *)
  stdout : list Line                 (* newest first *)
}.

Definition initial : State := mkState [] [].

(** A call either returns or panics. *)
Inductive Outcome (A : Type) :=
| Return (a : A)
| Panicked.
Arguments Return {A} a.
Arguments Panicked {A}.

Definition M (A : Type) : Type := State -> Outcome A * State.

Definition ret {A} (a : A) : M A := fun st => (Return a, st).

Definition bind {A B} (m : M A) (k : A -> M B) : M B :=
  fun st =>
    match m st with
    | (Return a, st') => k a st'
    | (Panicked, st') => (Panicked, st')
    end.

Definition lift {A} (o : Outcome A) : M A := fun st => (o, st).

Notation "'let*' x ':=' m 'in' k" := (bind m (fun x => k))
  (at level 10, x name, m at level 100, k at level 200).

(** The calls made so far. *)
Definition history : M (list Request) := fun st => (Return (requests st), st).

Definition print (l : Line) : M unit :=
  fun st => (Return tt, mkState (requests st) (l :: stdout st)).

Definition clientGet (E : Env) (url : string) : M (Reply Document) :=
  fun st =>
    let log := ClientGet url :: requests st in
    (Return (servePage E log), mkState log (stdout st)).

Definition httpGet (E : Env) (url : string) : M (Reply Document) :=
  fun st =>
    let log := HttpGet url :: requests st in
    (Return (servePage E log), mkState log (stdout st)).

Definition clientDo (E : Env) (endpoint slug referer : string)
  : M (Reply GraphQLResult) :=
  fun st =>
    let log := GraphQLPost endpoint slug referer :: requests st in
    (Return (serveGraphQL E log), mkState log (stdout st)).

(* ===================================================================== *)
(** * The parser                                                         *)
(* ===================================================================== *)

(* --------------------------------------------------------------------- *)
(** ** [extractVideoURLs]                                                *)
(* --------------------------------------------------------------------- *)

(** Body of [for _, h264 := range resources.H264]. *)
Definition addH264 (talk : Talk) (h : H264) : Talk :=
  let talk := set_VideoFormats talk
                (VideoFormats talk ++ [mkVideoFormat (hQuality h) (hURL h) (hSize h)])%list in
  let m := match VideoURLs talk with
           | None => ∅                (* make(map[string]string) *)
           | Some m => m
           end in
  set_VideoURLs talk (Some (mapset (hQuality h) (hURL h) m)).

(** The callback of [doc.Find("script").Each] on one script element. *)
Definition scriptStep (E : Env) (talk : Talk) (text : string) : Outcome Talk :=
  if Contains text "talkPage.init" then
    let start := Index text "{" in
    let end_ := LastIndex text "}" in
    if negb (start =? -1) && negb (end_ =? -1) then
      match slice text start (end_ + 1) with
      | None => Panicked
      | Some jsonData =>
          match unmarshalPage E jsonData with
          | None => Return talk
          | Some data =>
              match PlayerData_Talks data with
              | t0 :: _ =>
                  match PlayerTalks t0 with
                  | pt0 :: _ => Return (fold_left addH264 (Resources_H264 pt0) talk)
                  | [] => Return talk
                  end
              | [] => Return talk
              end
          end
      end
    else Return talk
  else Return talk.

(** [Each] over the script elements, in document order. *)
Fixpoint eachScript (E : Env) (texts : list string) (talk : Talk) : Outcome Talk :=
  match texts with
  | [] => Return talk
  | text :: rest =>
      match scriptStep E talk text with
      | Return talk' => eachScript E rest talk'
      | Panicked => Panicked
      end
  end.

(** [func (p *Parser) extractVideoURLs(doc, talk) error]. The result is the
    talk behind the pointer after the call; the Go error is [nil] on every
    path. *)
Definition extractVideoURLs (E : Env) (doc : Document) (talk : Talk) : Outcome Talk :=
  eachScript E (scripts doc) talk.

(* --------------------------------------------------------------------- *)
(** ** [extractSubtitleURLs]                                             *)
(* --------------------------------------------------------------------- *)

(** The callback of [doc.Find("a[data-language]").Each]. *)
Definition anchorStep (m : gmap string string) (a : Anchor) : gmap string string :=
  let lang := dataLanguage a in
  match href a with
  | Some url =>
      if negb (String.eqb lang "") then
        let url := if HasPrefix url "http" then url else baseURL +:+ url in
        mapset lang url m
      else m
  | None => m
  end.

(** [func (p *Parser) extractSubtitleURLs(doc, talk) error]; the Go error
    is [nil] on every path. *)
Definition extractSubtitleURLs (doc : Document) (talk : Talk) : Talk :=
  set_SubtitleURLs talk (Some (fold_left anchorStep (langAnchors doc) ∅)).

(* --------------------------------------------------------------------- *)
(** ** [parseTalkDetails] and the listing search                         *)
(* --------------------------------------------------------------------- *)

(** [func (p *Parser) parseTalkDetails(talk *Talk) error]: the talk behind
    the pointer after the call, and the returned error. The two
    [err != nil] tests after the extractors never fire. *)
Definition parseTalkDetails (E : Env) (p : Parser) (talk : Talk)
  : M (Talk * option error) :=
  let* reply := clientGet E (URL talk) in
  match reply with
  | TransportError cause => ret (talk, Some (ErrFetchTalkPage cause))
  | Response _ (Decoded doc) =>
      let* talk1 := lift (extractVideoURLs E doc talk) in
      ret (extractSubtitleURLs doc talk1, None)
  | Response _ _ => ret (talk, Some ErrParseTalkPage)
  end.

(** The stub a listing block gives: title, speaker and absolute URL. *)
Definition entryTalk (s : ListingEntry) : Talk :=
  let titleLink := if isSearchResult s then h3Links s else titleLinks s in
  let title := TrimSpace (Text titleLink) in
  let speaker := TrimSpace (speakerText s) in
  let url := fst (AttrHref titleLink) in
  let url := if HasPrefix url "http" then url else baseURL +:+ url in
  newTalk title speaker url.

(** The callback of [Each] in [parseTalksList], for block number [i]. *)
Definition entryStep (E : Env) (p : Parser) (limit i : Z) (s : ListingEntry)
    (talks : list Talk) : M (list Talk) :=
  if limit <=? i then ret talks
  else
    let talk := entryTalk s in
    let* r := parseTalkDetails E p talk in
    let* _ := match snd r with
              | Some err => print (Warning (URL talk) err)
              | None => ret tt
              end in
    ret (talks ++ [fst r])%list.

Fixpoint eachEntry (E : Env) (p : Parser) (limit i : Z) (es : list ListingEntry)
    (talks : list Talk) : M (list Talk) :=
  match es with
  | [] => ret talks
  | s :: rest =>
      let* talks' := entryStep E p limit i s talks in
      eachEntry E p limit (i + 1) rest talks'
  end.

(** [func (p *Parser) parseTalksList(url, limit) ([]Talk, error)] *)
Definition parseTalksList (E : Env) (p : Parser) (url : string) (limit : Z)
  : M (result (list Talk)) :=
  let* reply := clientGet E url in
  match reply with
  | TransportError cause => ret (Fail (ErrFetchTalksList cause))
  | Response _ (Decoded doc) =>
      let* talks := eachEntry E p limit 0 (listing doc) [] in
      ret (Ok talks)
  | Response _ _ => ret (Fail ErrParseHTML)
  end.

(** [func (p *Parser) ParseTopic(query, limit) ([]Talk, error)] *)
Definition ParseTopic (E : Env) (p : Parser) (query : string) (limit : Z)
  : M (result (list Talk)) :=
  if negb (Contains query " ") then
    let url := baseURL +:+ "/talks?topics[]=" +:+ query in
    parseTalksList E p url limit
  else
    let url := baseURL +:+ "/search?q=" +:+ ReplaceAll query " " "+" in
    parseTalksList E p url limit.

(* --------------------------------------------------------------------- *)
(** ** [parseWithGraphQL]                                                *)
(* --------------------------------------------------------------------- *)

(** [for _, sub := range node.SubtitledDownloads] with its [break]: the
    first entry whose code is ["en"] sets both qualities. *)
Fixpoint englishLoop (subs : list SubtitledDownload) (m : gmap string string)
  : gmap string string :=
  match subs with
  | [] => m
  | sub :: rest =>
      if String.eqb (InternalLanguageCode sub) "en"
      then mapset "1080p" (High sub) (mapset "720p" (Low sub) m)
      else englishLoop rest m
  end.

(** Body of the second loop over [node.SubtitledDownloads]. *)
Definition subtitleStep (m : gmap string string) (sub : SubtitledDownload)
  : gmap string string :=
  if negb (String.eqb (Low sub) "")
  then mapset (ToLower (InternalLanguageCode sub)) (Low sub) m
  else m.

(** [func (p *Parser) parseWithGraphQL(slug, url string) ( *Talk, error)].
    [json.Marshal] of the fixed request body and [http.NewRequest] on the
    parser's endpoint are taken to succeed. The page fetch assigns to the
    variable [resp] that the first deferred closure closes on leaving:
    when [http.Get] fails with a nil response that closure dereferences
    nil and the call panics; only the error of a refused redirect, which
    comes with a response, is returned. *)
Definition parseWithGraphQL (E : Env) (p : Parser) (slug url : string)
  : M (result Talk) :=
  let* reply := clientDo E (GraphqlURL p) slug url in
  match reply with
  | TransportError cause => ret (Fail (ErrSendRequest cause))
  | Response _ Unreadable => ret (Fail ErrReadResponse)
  | Response _ Malformed => ret (Fail ErrDecodeResponse)
  | Response _ (Decoded res) =>
      match Errors res with
      | e :: _ => ret (Fail (ErrGraphQL (Message e)))
      | [] =>
          match Nodes res with
          | [] => ret (Fail ErrNoVideoData)
          | node :: _ =>
              let talk := newTalk "" "" url in
              let talk := set_VideoURLs talk
                            (Some (englishLoop (SubtitledDownloads node) ∅)) in
              let talk := set_SubtitleURLs talk
                            (Some (fold_left subtitleStep (SubtitledDownloads node) ∅)) in
              let* page := httpGet E url in
              match page with
              | TransportError cause =>
                  let* log := history in
                  if refused E log then ret (Fail (ErrFetchTalkPage cause))
                  else lift Panicked
              | Response _ Unreadable => ret (Fail ErrReadHTMLResponse)
              | Response _ Malformed => ret (Fail ErrParseTalkPage)
              | Response _ (Decoded doc) =>
                  let talk := set_Title talk (FirstText (h1 doc)) in
                  let talk := set_Speaker talk (FirstText (h2 doc)) in
                  ret (Ok talk)
              end
          end
      end
  end.

(* --------------------------------------------------------------------- *)
(** ** [parseWithHTML]                                                   *)
(* --------------------------------------------------------------------- *)

(** [func (p *Parser) parseWithHTML(url string) ( *Talk, error)] *)
Definition parseWithHTML (E : Env) (p : Parser) (url : string) : M (result Talk) :=
  let* reply := clientGet E url in
  match reply with
  | TransportError cause => ret (Fail (ErrFetchTalkPage cause))
  | Response _ Unreadable => ret (Fail ErrReadHTMLResponse)
  | Response _ Malformed => ret (Fail ErrParseTalkPage)
  | Response _ (Decoded doc) =>
      let talk := newTalk "" "" url in
      let talk := set_Title talk (FirstText (h1 doc)) in
      let talk := set_Speaker talk (FirstText (h2 doc)) in
      let* talk := lift (extractVideoURLs E doc talk) in
      let talk := extractSubtitleURLs doc talk in
      if (maplen (VideoURLs talk) =? 0) && (maplen (SubtitleURLs talk) =? 0)
      then ret (Fail ErrNoVideoOrSubtitle)
      else ret (Ok talk)
  end.

(* --------------------------------------------------------------------- *)
(** ** [ParseURL]                                                        *)
(* --------------------------------------------------------------------- *)

(** The first non-empty string of a list, or [""]. *)
Fixpoint firstNonEmpty (l : list string) : string :=
  match l with
  | [] => ""
  | x :: rest => if String.eqb x "" then firstNonEmpty rest else x
  end.

(** [for i := len(parts) - 1; i >= 0; i--]: the last non-empty part. *)
Definition slugOfParts (parts : list string) : string :=
  firstNonEmpty (rev parts).

(** The test [slug == "" || strings.Contains(slug, ".") ||
    !strings.Contains(u, "/talks/")]. *)
Definition invalidURL (slug u : string) : bool :=
  String.eqb slug "" || Contains slug "." || negb (Contains u "/talks/").

(** [func (p *Parser) ParseURL(url string) ( *Talk, error)]. Indexing the
    result of [SplitN] with [0] panics on an empty slice. *)
Definition ParseURL (E : Env) (p : Parser) (url : string) : M (result Talk) :=
  match SplitN url "?" 2 !! 0%nat with
  | None => lift Panicked
  | Some u =>
      let parts := Split u "/" in
      let slug := slugOfParts parts in
      if invalidURL slug u then ret (Fail ErrInvalidURL)
      else
        let* r := parseWithGraphQL E p slug url in
        match r with
        | Fail _ => parseWithHTML E p url
        | Ok talk => ret (Ok talk)
        end
  end.

(* ===================================================================== *)
(** * The specification's words, as definitions                          *)
(* ===================================================================== *)

Module Spec.

(** Some byte of [s] satisfies [P]. *)
Fixpoint anyByte (P : ascii -> bool) (s : string) : bool :=
  match s with
  | EmptyString => false
  | String c s' => P c || anyByte P s'
  end.

(** The query contains a space character. *)
Definition hasSpace (query : string) : bool :=
  anyByte (Ascii.eqb " "%char) query.

(** U+00A0 NO-BREAK SPACE in UTF-8, a white-space character that is not
    the space character. *)
Definition nbsp : string :=
  String (ascii_of_nat 194) (String (ascii_of_nat 160) EmptyString).

(** The query contains white space: an ASCII white-space byte or a
    no-break space. *)
Definition hasWhitespace (query : string) : bool :=
  anyByte is_space query || Contains query nbsp.

(** "Spaces as +". *)
Definition plusForSpace (c : ascii) : ascii :=
  if Ascii.eqb c " "%char then "+"%char else c.

(** The braces of an initialisation script: the positions of the first
    opening and of the last closing brace, when the script carries the
    marker and both braces occur. *)
Definition braces (text : string) : option (nat * nat) :=
  if Contains text "talkPage.init" then
    match index_nat text "{", last_index_nat text "}" with
    | Some i, Some j => Some (i, j)
    | _, _ => None
    end
  else None.

(** The braces leave a text between them, possibly empty: the last
    closing brace is not more than one position before the first
    opening one. Scripts without the marker or without a brace
    qualify. *)
Definition inOrder (text : string) : Prop :=
  match braces text with
  | Some (i, j) => (i <= j + 1)%nat
  | None => True
  end.

(** The JSON document of a script: the text from the first opening
    brace to the last closing brace, both included. *)
Definition payload (text : string) : option string :=
  match braces text with
  | Some (i, j) => Some (String.substring i (j + 1 - i) text)
  | None => None
  end.

(** [playerData.talks[0].player_talks[0].resources.h264] of a decoded
    document; empty when a level is missing. *)
Definition h264Of (data : PageData) : list H264 :=
  match PlayerData_Talks data with
  | t0 :: _ =>
      match PlayerTalks t0 with
      | pt0 :: _ => Resources_H264 pt0
      | [] => []
      end
  | [] => []
  end.

(** The entries one script contributes. *)
Definition entries (E : Env) (text : string) : list H264 :=
  match payload text with
  | Some json =>
      match unmarshalPage E json with
      | Some data => h264Of data
      | None => []
      end
  | None => []
  end.

Definition toFormat (h : H264) : VideoFormat :=
  mkVideoFormat (hQuality h) (hURL h) (hSize h).

(** Entries of every script of the page, in document order. *)
Definition allEntries (E : Env) (doc : Document) : list H264 :=
  flat_map (entries E) (scripts doc).

(** Entries of the first script that carries the marker, and of no
    other. *)
Definition firstMatchEntries (E : Env) (doc : Document) : list H264 :=
  match find (fun text => Contains text "talkPage.init") (scripts doc) with
  | Some text => entries E text
  | None => []
  end.

(** The last element of [l] that [P] accepts. *)
Definition findLast {A} (P : A -> bool) (l : list A) : option A :=
  find P (rev l).

(** The last entry of quality [quality]. *)
Definition lastOfQuality (quality : string) (hs : list H264) : option H264 :=
  findLast (fun h => String.eqb (hQuality h) quality) hs.

(** The last subtitle entry with a non-empty low URL whose lower-cased
    language code is [code]. *)
Definition lastSubtitleFor (code : string) (subs : list SubtitledDownload)
  : option SubtitledDownload :=
  findLast (fun d => negb (String.eqb (Low d) "")
                     && String.eqb (ToLower (InternalLanguageCode d)) code) subs.

(** The first entry whose language code is ["en"]. *)
Definition firstEnglish (subs : list SubtitledDownload) : option SubtitledDownload :=
  find (fun d => String.eqb (InternalLanguageCode d) "en") subs.

(** [m[k]] on a possibly nil map. *)
Definition mapget (m : option (gmap string string)) (k : string) : option string :=
  match m with
  | Some m => m !! k
  | None => None
  end.

(** The talk holds at least one video URL, subtitle URL or video
    format. *)
Definition hasData (t : Talk) : Prop :=
  0 < maplen (VideoURLs t) \/ 0 < maplen (SubtitleURLs t) \/ VideoFormats t <> [].

(** The same site with every status code rewritten by [f]. *)
Definition mapStatus (f : Z -> Z) (E : Env) : Env :=
  mkEnv (unmarshalPage E)
        (fun log => match servePage E log with
                    | Response status body => Response (f status) body
                    | TransportError cause => TransportError cause
                    end)
        (serveGraphQL E) (refused E).

End Spec.

(* ===================================================================== *)
(** * Sample sites and documents                                         *)
(* ===================================================================== *)

Module Samples.

(** One double-quote character. *)
Definition dq : string := String (ascii_of_nat 34) EmptyString.

(** [q s] is [s] between double quotes. *)
Definition q (s : string) : string := dq +:+ s +:+ dq.

Definition h264_json (quality size file : string) : string :=
  "{" +:+ q "quality" +:+ ":" +:+ q quality +:+ ","
      +:+ q "size" +:+ ":" +:+ size +:+ ","
      +:+ q "file" +:+ ":" +:+ q file +:+ "}".

(** [{"playerData":{"talks":[{"player_talks":[{"resources":{"h264":[...]}}]}]}}]
    around the given entries. *)
Definition player_json (entries : string) : string :=
  "{" +:+ q "playerData" +:+ ":{" +:+ q "talks" +:+ ":[{"
      +:+ q "player_talks" +:+ ":[{" +:+ q "resources" +:+ ":{"
      +:+ q "h264" +:+ ":[" +:+ entries +:+ "]}}]}]}}".

(** The payload of the repository's parser tests: 1080p, then 720p. *)
Definition json_two : string :=
  player_json
    (h264_json "1080p" "1000000" "https://example.com/video/1080p.mp4"
       +:+ "," +:+
     h264_json "720p" "500000" "https://example.com/video/720p.mp4").

Definition json_one : string :=
  player_json (h264_json "480p" "250000" "https://example.com/video/480p.mp4").

Definition data_of (hs : list H264) : PageData :=
  mkPageData [mkPlayerDataTalk [mkPlayerTalk hs]].

Definition h1080 : H264 := mkH264 "1080p" 1000000 "https://example.com/video/1080p.mp4".
Definition h720 : H264 := mkH264 "720p" 500000 "https://example.com/video/720p.mp4".
Definition h480 : H264 := mkH264 "480p" 250000 "https://example.com/video/480p.mp4".

(** A decoder that reads the two documents above as [encoding/json]
    does and rejects every other text. *)
Definition unmarshal (s : string) : option PageData :=
  if String.eqb s json_two then Some (data_of [h1080; h720])
  else if String.eqb s json_one then Some (data_of [h480])
  else None.

(** A site that answers every page request with [pg] and every API
    request with [g]. *)
Definition site (g : Reply GraphQLResult) (pg : Reply Document) : Env :=
  mkEnv unmarshal (fun _ => pg) (fun _ => g) (fun _ => false).

Definition script_of (json : string) : string :=
  "talkPage.init(" +:+ json +:+ ");".

Definition anchors : list Anchor :=
  [mkAnchor "en" (Some "/talks/subtitles/en");
   mkAnchor "zh" (Some "/talks/subtitles/zh")].

(** The talk page of the parser tests. *)
Definition talk_page : Document :=
  mkDocument [script_of json_two] ["Test Title"] ["Test Speaker"] anchors [].

(** A page with a title and a speaker and nothing to extract. *)
Definition bare_page : Document :=
  mkDocument [] ["Test Title"] ["Test Speaker"] [] [].

(** A page with two initialisation scripts. *)
Definition two_script_page : Document :=
  mkDocument [script_of json_one; script_of json_two] [] [] [] [].

(** An error page that still carries a subtitle link. *)
Definition error_page : Document :=
  mkDocument [] ["Not Found"] [] [mkAnchor "en" (Some "/talks/subtitles/en")] [].

Definition test_url : string := "https://www.ted.com/talks/test_slug".

Definition api_errors : Reply GraphQLResult :=
  Response 200 (Decoded (mkGraphQLResult [] [mkGraphQLError "Invalid slug"])).

Definition api_no_nodes : Reply GraphQLResult :=
  Response 200 (Decoded (mkGraphQLResult [] [])).

Definition no_native : NativeDownloads := mkNativeDownloads "" "" "".

Definition api_node (subs : list SubtitledDownload) : Reply GraphQLResult :=
  Response 200 (Decoded (mkGraphQLResult [mkNode no_native subs] [])).

(** The two subtitle entries of [TestParseURL_GraphQL]. *)
Definition subs_en_zh : list SubtitledDownload :=
  [mkSubtitledDownload "https://download.ted.com/talks/test-low-en.mp4"
                       "https://download.ted.com/talks/test-480p-en.mp4"
                       "en" "English";
   mkSubtitledDownload "https://download.ted.com/talks/test-low-zh-cn.mp4"
                       "https://download.ted.com/talks/test-480p-zh-cn.mp4"
                       "zh-cn" "Chinese, Simplified"].

(** Two entries that share one language code. *)
Definition subs_twice_en : list SubtitledDownload :=
  [mkSubtitledDownload "A" "" "en" "English";
   mkSubtitledDownload "B" "" "en" "English"].

(** The two blocks of the topic listing of [TestParseTopic]. *)
Definition entry_john : ListingEntry :=
  mkListingEntry false []
    [mkElement "The power of education" (Some "/talks/john_doe_power_of_education")]
    "John Doe".

Definition entry_jane : ListingEntry :=
  mkListingEntry false []
    [mkElement "Learning in the digital age" (Some "/talks/jane_smith_learning_digital")]
    "Jane Smith".

Definition listing_page : Document :=
  mkDocument [] [] [] [] [entry_john; entry_jane].

Definition listing_url : string := "https://www.ted.com/talks?topics[]=education".

(** A site that serves the listing, times out on the first talk page and
    serves the second. *)
Definition listing_site : Env :=
  mkEnv unmarshal
        (fun log =>
           match log with
           | ClientGet u :: _ =>
               if String.eqb u listing_url then Response 200 (Decoded listing_page)
               else if String.eqb u "https://www.ted.com/talks/john_doe_power_of_education"
                    then TransportError "timeout"
                    else Response 200 (Decoded talk_page)
           | _ => TransportError "unexpected request"
           end)
        (fun _ => api_errors) (fun _ => false).

(** A talk page whose script has its closing brace before its opening
    one. *)
Definition broken_page : Document :=
  mkDocument ["talkPage.init } {"] ["Test Title"] ["Test Speaker"] [] [].

(** A site that serves the listing, times out on the first talk page and
    serves the broken page for the second. *)
Definition broken_listing_site : Env :=
  mkEnv unmarshal
        (fun log =>
           match log with
           | ClientGet u :: _ =>
               if String.eqb u listing_url then Response 200 (Decoded listing_page)
               else if String.eqb u "https://www.ted.com/talks/john_doe_power_of_education"
                    then TransportError "timeout"
                    else Response 200 (Decoded broken_page)
           | _ => TransportError "unexpected request"
           end)
        (fun _ => api_errors) (fun _ => false).

(** A query whose two words are separated by a no-break space. *)
Definition nbsp_query : string := "machine" +:+ Spec.nbsp +:+ "learning".

(** A listing page without any block. *)
Definition no_block_page : Document := mkDocument [] [] [] [] [].

End Samples.


(* ===================================================================== *)
(** * The rest of package [parser]                                       *)
(* ===================================================================== *)

(** The errors [ParseTalkDetails] adds to those of the search and of
    [ParseURL]. *)
Inductive lookupError :=
| ErrSearchForTalk (e : error)       (* failed to search for talk: ... *)
| ErrNoTalkFound (title : string)    (* no talk found with title: ... *)
| ErrParseURL (e : error).           (* the error of ParseURL, as it is *)

(** [func (p *Parser) ParseTalkDetails(title string) ( *Talk, error)] *)
Definition ParseTalkDetails (E : Env) (p : Parser) (title : string)
  : M (lookupError + Talk) :=
  let* found := ParseTopic E p title 1 in
  match found with
  | Fail e => ret (inl (ErrSearchForTalk e))
  | Ok talks =>
      match talks with
      | [] => ret (inl (ErrNoTalkFound title))
      | first :: _ =>
          let* r := ParseURL E p (URL first) in
          match r with
          | Fail e => ret (inl (ErrParseURL e))
          | Ok talk => ret (inr talk)
          end
      end
  end.

(* ===================================================================== *)
(** * Package [cmd]: the slug of a URL                                   *)
(* ===================================================================== *)

(** [func extractSlug(url string) string] of [cmd/download.go]; its loop
    is the loop of [ParseURL]. *)
Definition extractSlug (url : string) : Outcome string :=
  match SplitN url "?" 2 !! 0%nat with
  | None => Panicked
  | Some u => Return (slugOfParts (Split u "/"))
  end.

(* ===================================================================== *)
(** * Package [downloader]                                               *)
(* ===================================================================== *)

Module Downloader.

(** One double-quote character. *)
Definition quote : string := String (ascii_of_nat 34) EmptyString.

(** [invalid := []string{...}] of [sanitizeFilename]. *)
Definition invalid : list string :=
  ["/"; "\"; ":"; "*"; "?"; quote; "<"; ">"; "|"].

(** [func sanitizeFilename(s string) string] *)
Definition sanitizeFilename (s : string) : string :=
  fold_left (fun result char => ReplaceAll result char "_") invalid s.

(** What the downloader does to the outside, in order. *)
Inductive Event :=
| MkdirAll (dir : string)            (* os.MkdirAll(dir, 0755) *)
| Create (name : string)             (* os.Create(name) *)
| Get (url : string).                (* d.client.Get(url) *)

(** The answer to a GET: a transport error, or a response with its status
    code, its status line and its body. [stops] is [Some n] when copying
    the body to the file fails after [n] bytes. *)
Inductive Fetched :=
| FetchError (cause : string)
| Fetch (status : Z) (statusLine : string) (body : string) (stops : option nat).

(** The operating system and the network as the downloader meets them,
    each answer a function of the events so far, newest first.
    [mkdirAll] and [create] answer with the text of an error, if any. *)
Record Sys := mkSys {
  Dir : string -> string;                    (* filepath.Dir *)
  Join : string -> string -> string -> string; (* filepath.Join, three parts *)
  mkdirAll : list Event -> option string;
  create : list Event -> option string;
  get : list Event -> Fetched
}.

(** The events so far and the content of the files written. *)
Record Disk := mkDisk {
  events : list Event;
  files : gmap string string
}.

Definition blank : Disk := mkDisk [] ∅.

Inductive Kind := Video | Subtitle.

Inductive derror :=
| ErrCreateBaseDir (cause : string)  (* failed to create base directory *)
| ErrCreateDir (cause : string)      (* failed to create directory *)
| ErrCreateFile (cause : string)     (* failed to create output file *)
| ErrGet (k : Kind) (cause : string) (* failed to get video / subtitle *)
| ErrBadStatus (statusLine : string) (* bad status: ... *)
| ErrDownload (k : Kind).            (* failed to download video / subtitle *)

(** [type Downloader struct], without its HTTP client. *)
Record Downloader := mkDownloader {
  baseDir : string;
  maxRetries : Z
}.

(** [func New(baseDir string) ( *Downloader, error)] *)
Definition New (S : Sys) (dir : string) (dk : Disk)
  : (derror + Downloader) * Disk :=
  let ev := MkdirAll dir :: events dk in
  match mkdirAll S ev with
  | Some cause => (inl (ErrCreateBaseDir cause), mkDisk ev (files dk))
  | None => (inr (mkDownloader dir 3), mkDisk ev (files dk))
  end.

(** The loop [for attempt := 0; attempt < d.maxRetries; attempt++] of
    [DownloadVideo] and [DownloadSubtitle], with [n] rounds to go; the
    first component of the result is the error returned, [None] for
    [nil]. [os.Create] truncates the file; [io.Copy] leaves in it what it
    had written when it failed. Errors of [Close] are only printed. *)
Fixpoint attempts (S : Sys) (k : Kind) (url filename : string) (n : nat)
    (lastErr : option derror) (dk : Disk) : option derror * Disk :=
  match n with
  | O => (lastErr, dk)
  | Datatypes.S n' =>
      let ev1 := Create filename :: events dk in
      match create S ev1 with
      | Some cause => (Some (ErrCreateFile cause), mkDisk ev1 (files dk))
      | None =>
          let files1 := <[filename := ""]> (files dk) in
          let ev2 := Get url :: ev1 in
          match get S ev2 with
          | FetchError cause =>
              attempts S k url filename n' (Some (ErrGet k cause)) (mkDisk ev2 files1)
          | Fetch status statusLine body stops =>
              if negb (status =? 200) then
                attempts S k url filename n' (Some (ErrBadStatus statusLine))
                         (mkDisk ev2 files1)
              else
                match stops with
                | Some written =>
                    attempts S k url filename n' (Some (ErrDownload k))
                             (mkDisk ev2 (<[filename := String.substring 0 written body]> files1))
                | None => (None, mkDisk ev2 (<[filename := body]> files1))
                end
          end
      end
  end.

(** The common shape of the two download functions. *)
Definition download (S : Sys) (k : Kind) (d : Downloader) (url filename : string)
    (dk : Disk) : option derror * Disk :=
  let ev := MkdirAll (Dir S filename) :: events dk in
  match mkdirAll S ev with
  | Some cause => (Some (ErrCreateDir cause), mkDisk ev (files dk))
  | None =>
      attempts S k url filename (Z.to_nat (maxRetries d)) None (mkDisk ev (files dk))
  end.

(** [func (d *Downloader) DownloadVideo(url, filename string) error] *)
Definition DownloadVideo (S : Sys) (d : Downloader) (url filename : string)
    (dk : Disk) : option derror * Disk :=
  download S Video d url filename dk.

(** [func (d *Downloader) DownloadSubtitle(url, filename string) error] *)
Definition DownloadSubtitle (S : Sys) (d : Downloader) (url filename : string)
    (dk : Disk) : option derror * Disk :=
  download S Subtitle d url filename dk.

(** [func (d *Downloader) GetDownloadPath(talkTitle, format string) string] *)
Definition GetDownloadPath (S : Sys) (d : Downloader) (talkTitle format : string)
  : string :=
  Join S (baseDir d) (sanitizeFilename talkTitle) format.

End Downloader.

(* ===================================================================== *)
(** * Package [cmd]: the download command                                *)
(* ===================================================================== *)

Module Cmd.

(** The flags of the command: [--quality], [--subtitle], [--output]. *)
Record Flags := mkFlags {
  quality : string;
  subtitle : string;
  output : string
}.

(** The errors [runDownload] returns. *)
Inductive cerror :=
| ErrNoArgument                                  (* please provide a talk title or URL *)
| ErrCreateDownloader (e : Downloader.derror)    (* failed to create downloader *)
| ErrParseTalkDetails (e : lookupError)          (* failed to parse talk details *)
| ErrQuality (quality : string)                  (* video quality ... not available *)
| ErrDownloadVideo (e : Downloader.derror)       (* failed to download video *)
| ErrSubtitle (subtitle : string)                (* subtitle language ... not available *)
| ErrDownloadSubtitle (e : Downloader.derror).   (* failed to download subtitle *)

(** Lines the command prints. *)
Inductive Message :=
| DownloadingVideo (quality : string)
| DownloadingSubtitle (subtitle : string)
| SubtitleAt (path : string)
| Completed
| VideoAt (path : string).

(** The network as the parser sees it, the disk and network as the
    downloader sees them, and the console. *)
Record World := mkWorld {
  net : State;
  disk : Downloader.Disk;
  console : list Message               (* newest first *)
}.

(** The part of [runDownload] after the talk and the slug are known. *)
Definition fetchMedia (S : Downloader.Sys) (f : Flags) (d : Downloader.Downloader)
    (talk : Talk) (slug : string) (w : World) : option cerror * World :=
  match Spec.mapget (VideoURLs talk) (quality f) with
  | None => (Some (ErrQuality (quality f)), w)
  | Some videoURL =>
      let out1 := DownloadingVideo (quality f) :: console w in
      let videoPath := Downloader.GetDownloadPath S d slug (quality f +:+ ".mp4") in
      match Downloader.DownloadVideo S d videoURL videoPath (disk w) with
      | (Some e, dk1) => (Some (ErrDownloadVideo e), mkWorld (net w) dk1 out1)
      | (None, dk1) =>
          if negb (String.eqb (subtitle f) "") then
            match Spec.mapget (SubtitleURLs talk) (subtitle f) with
            | None => (Some (ErrSubtitle (subtitle f)), mkWorld (net w) dk1 out1)
            | Some subtitleURL =>
                let out2 := DownloadingSubtitle (subtitle f) :: out1 in
                let subtitlePath :=
                  Downloader.GetDownloadPath S d slug (subtitle f +:+ ".srt") in
                match Downloader.DownloadSubtitle S d subtitleURL subtitlePath dk1 with
                | (Some e, dk2) =>
                    (Some (ErrDownloadSubtitle e), mkWorld (net w) dk2 out2)
                | (None, dk2) =>
                    (None, mkWorld (net w) dk2
                             (VideoAt videoPath :: Completed
                                :: SubtitleAt subtitlePath :: out2))
                end
            end
          else (None, mkWorld (net w) dk1 (VideoAt videoPath :: Completed :: out1))
      end
  end.

(** [func runDownload(cmd *cobra.Command, args []string) error]. For a
    title, the slug is read off [talk.URL] before the error of the lookup
    is looked at: with a nil talk that field access panics. *)
Definition runDownload (E : Env) (S : Downloader.Sys) (f : Flags) (args : list string)
    (w : World) : Outcome (option cerror) * World :=
  match args with
  | [] => (Return (Some ErrNoArgument), w)
  | arg :: _ =>
      let p := New in
      match Downloader.New S (output f) (disk w) with
      | (inl e, dk) => (Return (Some (ErrCreateDownloader e)), mkWorld (net w) dk (console w))
      | (inr d, dk) =>
          if HasPrefix arg "http" then
            match ParseURL E p arg (net w) with
            | (Panicked, st) => (Panicked, mkWorld st dk (console w))
            | (Return r, st) =>
                match extractSlug arg with
                | Panicked => (Panicked, mkWorld st dk (console w))
                | Return slug =>
                    match r with
                    | Fail e =>
                        (Return (Some (ErrParseTalkDetails (ErrParseURL e))),
                         mkWorld st dk (console w))
                    | Ok talk =>
                        let '(err, w') :=
                          fetchMedia S f d talk slug (mkWorld st dk (console w)) in
                        (Return err, w')
                    end
                end
            end
          else
            match ParseTalkDetails E p arg (net w) with
            | (Panicked, st) => (Panicked, mkWorld st dk (console w))
            | (Return (inl _), st) => (Panicked, mkWorld st dk (console w))
            | (Return (inr talk), st) =>
                match extractSlug (URL talk) with
                | Panicked => (Panicked, mkWorld st dk (console w))
                | Return slug =>
                    let '(err, w') :=
                      fetchMedia S f d talk slug (mkWorld st dk (console w)) in
                    (Return err, w')
                end
            end
      end
  end.

End Cmd.

(* ===================================================================== *)
(** * More of the specification's words                                  *)
(* ===================================================================== *)

Module Spec2.

(** [c] is one of the nine bytes [sanitizeFilename] replaces. *)
Definition isInvalid (c : ascii) : bool :=
  existsb (fun s => String.eqb s (String c EmptyString)) Downloader.invalid.

Definition underscoreInvalid (c : ascii) : ascii :=
  if isInvalid c then "_"%char else c.

(** [c] is one of the ASCII capital letters [A] to [Z]. *)
Definition isCapital (c : ascii) : bool :=
  let n := nat_of_ascii c in (65 <=? n)%nat && (n <=? 90)%nat.

(** Byte [c] replaced by byte [d]. *)
Definition swapByte (c d x : ascii) : ascii :=
  if Ascii.eqb x c then d else x.

(** An [href] made absolute the way the parser does it. *)
Definition absolute (url : string) : string :=
  if HasPrefix url "http" then url else baseURL +:+ url.

(** The last anchor that has an [href] and the non-empty language
    [lang]. *)
Definition lastAnchorFor (lang : string) (anchors : list Anchor) : option Anchor :=
  Spec.findLast (fun a => match href a with Some _ => true | None => false end
                          && negb (String.eqb (dataLanguage a) "")
                          && String.eqb (dataLanguage a) lang) anchors.

(** The last video format of quality [quality]. *)
Definition lastFormat (quality : string) (fs : list VideoFormat) : option VideoFormat :=
  Spec.findLast (fun f => String.eqb (Quality f) quality) fs.

(** Two talks with the same title, speaker and URL. *)
Definition sameStub (a b : Talk) : Prop :=
  Title a = Title b /\ Speaker a = Speaker b /\ URL a = URL b.

(** The number of [Get] events in a list. *)
Fixpoint countGets (evs : list Downloader.Event) : nat :=
  match evs with
  | [] => O
  | Downloader.Get _ :: rest => S (countGets rest)
  | _ :: rest => countGets rest
  end.

End Spec2.

Module Samples2.

(** [filepath.Dir] and [filepath.Join] on clean relative paths written
    with slashes: the directory is what stands before the last slash. *)
Definition dir_of (path : string) : string :=
  match last_index_nat path "/" with
  | Some (S n) => String.substring 0 (S n) path
  | Some O => "/"
  | None => "."
  end.

Definition join3 (a b c : string) : string := a +:+ "/" +:+ b +:+ "/" +:+ c.

(** A system where directories and files can always be made and every
    GET is answered by [answer]. *)
Definition sys (answer : Downloader.Fetched) : Downloader.Sys :=
  Downloader.mkSys dir_of join3 (fun _ => None) (fun _ => None) (fun _ => answer).

Definition content : Downloader.Fetched :=
  Downloader.Fetch 200 "200 OK" "test content" None.

Definition not_found : Downloader.Fetched :=
  Downloader.Fetch 404 "404 Not Found" "" None.

Definition three : Downloader.Downloader := Downloader.mkDownloader "downloads" 3.

(** A site with an empty listing page and a failing API. *)
Definition empty_listing_site : Env :=
  Samples.site Samples.api_errors (Response 200 (Decoded (mkDocument [] [] [] [] []))).

Definition flags : Cmd.Flags := Cmd.mkFlags "720p" "" "downloads".

Definition start : Cmd.World := Cmd.mkWorld initial Downloader.blank [].

End Samples2.
(* ===================================================================== *)
(** * Properties of the string functions                                 *)
(* ===================================================================== *)

(** Values taken from the documentation of package [strings]. *)
Example Index_chicken : Index "chicken" "ken" = 4.
Proof. reflexivity. Qed.

Example Index_absent : Index "chicken" "dmr" = -1.
Proof. reflexivity. Qed.

Example LastIndex_gopher : LastIndex "go gopher" "go" = 3.
Proof. reflexivity. Qed.

Example Split_commas : Split "a,b,c" "," = ["a"; "b"; "c"].
Proof. reflexivity. Qed.

Example Split_sausage :
  Split "a man a plan a canal panama" "a "
  = [""; "man "; "plan "; "canal panama"].
Proof. reflexivity. Qed.

Example Split_empty : Split "" "/" = [""].
Proof. reflexivity. Qed.

Example SplitN_two : SplitN "a,b,c,d" "," 2 = ["a"; "b,c,d"].
Proof. reflexivity. Qed.

Example ReplaceAll_oink : ReplaceAll "oink oink oink" "oink" "moo" = "moo moo moo".
Proof. reflexivity. Qed.

Example ToLower_gopher : ToLower "Gopher" = "gopher".
Proof. reflexivity. Qed.

Example Split_talk_url :
  Split "https://www.ted.com/talks/x/" "/"
  = ["https:"; ""; "www.ted.com"; "talks"; "x"; ""].
Proof. reflexivity. Qed.

Example slug_talk_url :
  slugOfParts (Split "https://www.ted.com/talks/x/" "/") = "x".
Proof. reflexivity. Qed.

Example slice_braces : slice "ab{c}d" 2 5 = Some "{c}".
Proof. reflexivity. Qed.

Section StringFacts.

Lemma genSplit_head (cuts : nat) (s sep : string) :
  exists u, genSplit cuts s sep !! 0%nat = Some u.
Proof.
  destruct cuts as [|k]; simpl; [eauto|].
  destruct (index_nat s sep); simpl; eauto.
Qed.

(** [strings.SplitN(url, "?", 2)[0]] is always in range. *)
Lemma SplitN_two_head (url : string) :
  exists u, SplitN url "?" 2 !! 0%nat = Some u.
Proof. apply (genSplit_head 1 url "?"). Qed.

Lemma index_nat_bound (s sub : string) (i : nat) :
  index_nat s sub = Some i -> (i <= String.length s)%nat.
Proof.
  revert i; induction s as [|c s IH]; intros i.
  - cbn [index_nat]. destruct (String.prefix sub "").
    + intros [= <-]. simpl. lia.
    + discriminate.
  - cbn [index_nat]. destruct (String.prefix sub (String c s)).
    + intros [= <-]. lia.
    + destruct (index_nat s sub) as [j|] eqn:Hj; simpl; [|discriminate].
      intros [= <-]. specialize (IH j eq_refl). lia.
Qed.

(** A one-byte needle found last at [i] lies inside the string. *)
Lemma last_index_nat_bound (s : string) (c : ascii) (i : nat) :
  last_index_nat s (String c EmptyString) = Some i ->
  (i < String.length s)%nat.
Proof.
  revert i; induction s as [|d s IH]; intros i.
  - simpl. discriminate.
  - cbn [last_index_nat].
    destruct (last_index_nat s (String c "")) as [j|] eqn:Hj.
    + intros [= <-]. specialize (IH j eq_refl). simpl. lia.
    + destruct (String.prefix (String c "") (String d s)); [|discriminate].
      intros [= <-]. simpl. lia.
Qed.

Lemma Index_range (s sub : string) :
  Index s sub = -1 \/ 0 <= Index s sub <= len s.
Proof.
  unfold Index, len. destruct (index_nat s sub) as [i|] eqn:Hi; [right|left; reflexivity].
  apply index_nat_bound in Hi. lia.
Qed.

Lemma LastIndex_byte_range (s : string) (c : ascii) :
  LastIndex s (String c EmptyString) = -1
  \/ 0 <= LastIndex s (String c EmptyString) < len s.
Proof.
  unfold LastIndex, len.
  destruct (last_index_nat s (String c "")) as [i|] eqn:Hi; [right|left; reflexivity].
  apply last_index_nat_bound in Hi. lia.
Qed.

(** The slice [text[start:end+1]] taken by [extractVideoURLs] is out of
    range exactly when the last closing brace lies more than one
    position before the first opening brace. *)
Lemma brace_slice_none (text : string) :
  Index text "{" <> -1 -> LastIndex text "}" <> -1 ->
  (slice text (Index text "{") (LastIndex text "}" + 1) = None
   <-> LastIndex text "}" + 1 < Index text "{").
Proof.
  intros Hs He. unfold slice.
  destruct (Index_range text "{") as [?|Hr1]; [contradiction|].
  destruct (LastIndex_byte_range text "}"%char) as [?|Hr2]; [contradiction|].
  set (start := Index text "{") in *. set (end_ := LastIndex text "}") in *.
  destruct (Z.leb_spec 0 start); [|lia].
  destruct (Z.leb_spec (end_ + 1) (len text)); [|lia].
  destruct (Z.leb_spec start (end_ + 1)); simpl; split; intros;
    try discriminate; try reflexivity; lia.
Qed.

End StringFacts.

(* ===================================================================== *)
(** * URL validation                                                     *)
(* ===================================================================== *)

(** C3. A URL whose last non-empty path segment (query string stripped)
    is empty or contains a dot, or whose stripped form lacks [/talks/], is
    refused with the invalid-URL error, and the request log is left as it
    was: nothing has been sent. *)
Theorem ParseURL_rejects_invalid (E : Env) (p : Parser) (url u : string) (st : State) :
  SplitN url "?" 2 !! 0%nat = Some u ->
  slugOfParts (Split u "/") = ""
    \/ Contains (slugOfParts (Split u "/")) "." = true
    \/ Contains u "/talks/" = false ->
  ParseURL E p url st = (Return (Fail ErrInvalidURL), st).
Proof.
  intros Hu Hbad. unfold ParseURL. rewrite Hu.
  assert (Hinv : invalidURL (slugOfParts (Split u "/")) u = true).
  { unfold invalidURL. destruct Hbad as [H|[H|H]]; rewrite H.
    - reflexivity.
    - apply orb_true_iff; left; apply orb_true_r.
    - apply orb_true_r. }
  rewrite Hinv. reflexivity.
Qed.

Lemma ParseURL_rejects_invalid_witness :
  ParseURL (Samples.site Samples.api_no_nodes (Response 200 (Decoded Samples.bare_page)))
           New "https://www.ted.com/?lang=en" initial
  = (Return (Fail ErrInvalidURL), initial).
Proof.
  apply (ParseURL_rejects_invalid _ _ _ "https://www.ted.com/").
  - reflexivity.
  - right; left; reflexivity.
Defined.

(* ===================================================================== *)
(** * Maps filled by a loop: the last write wins                         *)
(* ===================================================================== *)

Section LastWrite.

Context {A : Type} (guard : A -> bool) (key val : A -> string).

Let step (m : gmap string string) (a : A) : gmap string string :=
  if guard a then mapset (key a) (val a) m else m.

Lemma fold_left_snoc {B C : Type} (f : B -> C -> B) (l : list C) (c : C) (b : B) :
  fold_left f (l ++ [c]) b = f (fold_left f l b) c.
Proof. rewrite fold_left_app. reflexivity. Qed.

(** After the loop, key [k] holds the value of the last guarded element
    with that key, and what it held before when there is none. *)
Lemma guarded_fold_lookup (l : list A) (m0 : gmap string string) (k : string) :
  fold_left step l m0 !! k
  = match Spec.findLast (fun a => guard a && String.eqb (key a) k) l with
    | Some a => Some (val a)
    | None => m0 !! k
    end.
Proof.
  unfold Spec.findLast.
  induction l as [|a l IH] using rev_ind; [reflexivity|].
  rewrite fold_left_snoc, rev_app_distr. cbn [rev app find].
  unfold step at 1. destruct (guard a) eqn:Hg; cbn [andb].
  - unfold mapset. destruct (String.eqb_spec (key a) k) as [->|Hne].
    + apply lookup_insert_eq.
    + rewrite lookup_insert_ne by exact Hne. exact IH.
  - exact IH.
Qed.

End LastWrite.

(* ===================================================================== *)
(** * Embedded-script extraction                                         *)
(* ===================================================================== *)

Section Scripts.

Variable E : Env.

Lemma braces_Some (text : string) (i j : nat) :
  Spec.braces text = Some (i, j) ->
  Contains text "talkPage.init" = true
  /\ Index text "{" = Z.of_nat i /\ LastIndex text "}" = Z.of_nat j
  /\ (j < String.length text)%nat.
Proof.
  unfold Spec.braces, Index, LastIndex.
  destruct (Contains text "talkPage.init"); [|discriminate].
  destruct (index_nat text "{") as [i'|]; [|discriminate].
  destruct (last_index_nat text "}") as [j'|] eqn:Hj; [|discriminate].
  intros [= <- <-]. repeat split; try reflexivity.
  eapply last_index_nat_bound; exact Hj.
Qed.

Lemma braces_None (text : string) :
  Spec.braces text = None ->
  Contains text "talkPage.init" = false
  \/ Index text "{" = -1 \/ LastIndex text "}" = -1.
Proof.
  unfold Spec.braces, Index, LastIndex.
  destruct (Contains text "talkPage.init"); [|left; reflexivity].
  destruct (index_nat text "{") as [i'|]; [|right; left; reflexivity].
  destruct (last_index_nat text "}") as [j'|]; [discriminate|].
  right; right; reflexivity.
Qed.

(** What one run of the callback does to the talk, when it returns. *)
Lemma scriptStep_entries (talk : Talk) (text : string) :
  Spec.inOrder text ->
  scriptStep E talk text = Return (fold_left addH264 (Spec.entries E text) talk).
Proof.
  unfold Spec.inOrder, Spec.entries, Spec.payload.
  destruct (Spec.braces text) as [[i j]|] eqn:Hb.
  - intros Hord. apply braces_Some in Hb as (Hc & Hi & Hj & Hlen).
    unfold scriptStep. rewrite Hc, Hi, Hj.
    replace (negb (Z.of_nat i =? -1) && negb (Z.of_nat j =? -1)) with true
      by (symmetry; apply andb_true_iff; split; apply negb_true_iff, Z.eqb_neq; lia).
    unfold slice, len.
    replace ((0 <=? Z.of_nat i) && (Z.of_nat i <=? Z.of_nat j + 1)
             && (Z.of_nat j + 1 <=? Z.of_nat (String.length text))) with true
      by (symmetry; repeat (apply andb_true_iff; split); apply Z.leb_le; lia).
    replace (Z.to_nat (Z.of_nat i)) with i by lia.
    replace (Z.to_nat (Z.of_nat j + 1 - Z.of_nat i)) with (j + 1 - i)%nat by lia.
    destruct (unmarshalPage E _) as [data|]; [|reflexivity].
    unfold Spec.h264Of. destruct (PlayerData_Talks data) as [|t0 ?]; [reflexivity|].
    destruct (PlayerTalks t0); reflexivity.
  - intros _. unfold scriptStep.
    destruct (braces_None _ Hb) as [H|[H|H]].
    + rewrite H. reflexivity.
    + rewrite H. destruct (Contains text "talkPage.init"); reflexivity.
    + rewrite H. destruct (Contains text "talkPage.init"); [|reflexivity].
      rewrite andb_false_r. reflexivity.
Qed.

(** The callback panics exactly when its script carries the marker and
    both braces, the last closing one more than one position before the
    first opening one. *)
Lemma scriptStep_panics_iff (talk : Talk) (text : string) :
  scriptStep E talk text = Panicked
  <-> Contains text "talkPage.init" = true
      /\ Index text "{" <> -1 /\ LastIndex text "}" <> -1
      /\ LastIndex text "}" + 1 < Index text "{".
Proof.
  unfold scriptStep. split.
  - destruct (Contains text "talkPage.init"); [|discriminate].
    destruct (Z.eqb_spec (Index text "{") (-1)) as [|Hs]; [discriminate|].
    destruct (Z.eqb_spec (LastIndex text "}") (-1)) as [|He]; [discriminate|].
    cbn [negb andb].
    destruct (slice text _ _) as [json|] eqn:Hsl.
    + destruct (unmarshalPage E json) as [data|]; [|discriminate].
      destruct (PlayerData_Talks data) as [|t0 ?]; [discriminate|].
      destruct (PlayerTalks t0); discriminate.
    + intros _. repeat split; try assumption.
      apply brace_slice_none; assumption.
  - intros (Hc & Hs & He & Hlt). rewrite Hc.
    destruct (Z.eqb_spec (Index text "{") (-1)) as [|_]; [contradiction|].
    destruct (Z.eqb_spec (LastIndex text "}") (-1)) as [|_]; [contradiction|].
    cbn [negb andb].
    rewrite (proj2 (brace_slice_none text Hs He) Hlt). reflexivity.
Qed.

Lemma eachScript_panics (texts : list string) (talk : Talk) (text : string) :
  In text texts ->
  (forall t, scriptStep E t text = Panicked) ->
  eachScript E texts talk = Panicked.
Proof.
  intros Hin Hp. revert talk.
  induction texts as [|x rest IH]; intros talk; [destruct Hin|].
  cbn [eachScript]. destruct (scriptStep E talk x) as [talk'|] eqn:Hx; [|reflexivity].
  destruct Hin as [->|Hin]; [rewrite Hp in Hx; discriminate|].
  apply IH; exact Hin.
Qed.

Lemma eachScript_entries (texts : list string) (talk : Talk) :
  (forall text, In text texts -> Spec.inOrder text) ->
  eachScript E texts talk
  = Return (fold_left addH264 (flat_map (Spec.entries E) texts) talk).
Proof.
  revert talk. induction texts as [|x rest IH]; intros talk Hall; [reflexivity|].
  cbn [eachScript flat_map]. rewrite scriptStep_entries by (apply Hall; left; reflexivity).
  rewrite IH by (intros; apply Hall; right; assumption).
  rewrite fold_left_app. reflexivity.
Qed.

(** ** The loop over the decoded entries *)

Lemma addH264_fold_formats (hs : list H264) (talk : Talk) :
  VideoFormats (fold_left addH264 hs talk)
  = (VideoFormats talk ++ map Spec.toFormat hs)%list.
Proof.
  revert talk. induction hs as [|h hs IH]; intros talk; cbn [fold_left map].
  - rewrite app_nil_r. reflexivity.
  - rewrite IH. cbn. rewrite <- app_assoc. reflexivity.
Qed.

Lemma addH264_fold_get (hs : list H264) (talk : Talk) (quality : string) :
  Spec.mapget (VideoURLs (fold_left addH264 hs talk)) quality
  = match Spec.lastOfQuality quality hs with
    | Some h => Some (hURL h)
    | None => Spec.mapget (VideoURLs talk) quality
    end.
Proof.
  unfold Spec.lastOfQuality, Spec.findLast.
  induction hs as [|h hs IH] using rev_ind; [reflexivity|].
  rewrite fold_left_snoc, rev_app_distr. cbn [rev app find].
  set (t := fold_left addH264 hs talk) in *.
  unfold addH264; cbn. unfold mapset.
  destruct (String.eqb_spec (hQuality h) quality) as [->|Hne].
  - apply lookup_insert_eq.
  - rewrite lookup_insert_ne by exact Hne.
    rewrite <- IH. destruct (VideoURLs t); reflexivity.
Qed.

Lemma addH264_fold_other (hs : list H264) (talk : Talk) :
  let talk' := fold_left addH264 hs talk in
  Title talk' = Title talk /\ Speaker talk' = Speaker talk /\ URL talk' = URL talk
  /\ SubtitleURLs talk' = SubtitleURLs talk.
Proof.
  revert talk. induction hs as [|h hs IH]; intros talk; cbn [fold_left]; [tauto|].
  destruct (IH (addH264 talk h)) as (H1 & H2 & H3 & H4).
  cbn zeta. rewrite H1, H2, H3, H4. repeat split; reflexivity.
Qed.

End Scripts.

(** C10. A page can make the embedded-script extraction panic: a script
    that carries the marker and both braces, with the last closing brace
    more than one position before the first opening brace, makes the slice
    [text[start:end+1]] run from a higher to a lower index, and the call
    does not return. *)
Theorem extractVideoURLs_panics (E : Env) (doc : Document) (talk : Talk) (text : string) :
  In text (scripts doc) ->
  Contains text "talkPage.init" = true ->
  Index text "{" <> -1 ->
  LastIndex text "}" <> -1 ->
  LastIndex text "}" + 1 < Index text "{" ->
  extractVideoURLs E doc talk = Panicked.
Proof.
  intros Hin Hc Hs He Hlt. unfold extractVideoURLs.
  apply eachScript_panics with (text := text); [exact Hin|].
  intros t. apply scriptStep_panics_iff. repeat split; assumption.
Qed.

Lemma extractVideoURLs_panics_witness :
  extractVideoURLs (Samples.site Samples.api_no_nodes (TransportError "down"))
    (mkDocument ["talkPage.init } {"] [] [] [] []) (newTalk "" "" Samples.test_url)
  = Panicked.
Proof.
  apply (extractVideoURLs_panics _ _ _ "talkPage.init } {").
  - left; reflexivity.
  - reflexivity.
  - discriminate.
  - discriminate.
  - reflexivity.
Defined.

(** When the closing brace stands directly before the opening one the
    slice is empty and in range: the call returns. *)
Example adjacent_braces_return :
  extractVideoURLs (Samples.site Samples.api_no_nodes (TransportError "down"))
    (mkDocument ["talkPage.init }{"] [] [] [] []) (newTalk "" "" Samples.test_url)
  = Return (newTalk "" "" Samples.test_url).
Proof. reflexivity. Qed.

(** C6, amended. The extraction looks at every script element for the
    marker and, for every script that carries it (not only the first),
    decodes the text from its first opening brace to its last closing
    brace, both included. The entries found are appended to
    [VideoFormats] as [{Quality, URL, Size}] in the order of the source
    documents, and [VideoURLs[quality]] ends up as the file of the last
    entry of that quality. *)
Theorem extractVideoURLs_every_script (E : Env) (doc : Document) (talk : Talk) :
  (forall text, In text (scripts doc) -> Spec.inOrder text) ->
  exists talk',
    extractVideoURLs E doc talk = Return talk'
    /\ VideoFormats talk'
       = (VideoFormats talk ++ map Spec.toFormat (Spec.allEntries E doc))%list
    /\ forall quality,
         Spec.mapget (VideoURLs talk') quality
         = match Spec.lastOfQuality quality (Spec.allEntries E doc) with
           | Some h => Some (hURL h)
           | None => Spec.mapget (VideoURLs talk) quality
           end.
Proof.
  intros Hord. eexists. split; [|split].
  - unfold extractVideoURLs. apply eachScript_entries. exact Hord.
  - apply addH264_fold_formats.
  - intros quality. apply addH264_fold_get.
Qed.

Lemma extractVideoURLs_every_script_witness :
  exists talk',
    extractVideoURLs (Samples.site Samples.api_errors (TransportError "down"))
      Samples.talk_page (newTalk "" "" Samples.test_url) = Return talk'
    /\ VideoFormats talk'
       = ([] ++ map Spec.toFormat
                 (Spec.allEntries (Samples.site Samples.api_errors (TransportError "down"))
                                  Samples.talk_page))%list
    /\ forall quality,
         Spec.mapget (VideoURLs talk') quality
         = match Spec.lastOfQuality quality
                   (Spec.allEntries (Samples.site Samples.api_errors (TransportError "down"))
                                    Samples.talk_page) with
           | Some h => Some (hURL h)
           | None => None
           end.
Proof.
  apply (extractVideoURLs_every_script
           (Samples.site Samples.api_errors (TransportError "down"))
           Samples.talk_page (newTalk "" "" Samples.test_url)).
  intros text [<-|[]]. vm_compute. lia.
Defined.

(** The page of the parser tests: both formats, in the order of the
    document. *)
Example talk_page_formats :
  extractVideoURLs (Samples.site Samples.api_errors (TransportError "down"))
    Samples.talk_page (newTalk "" "" Samples.test_url)
  = Return (mkTalk "" "" Samples.test_url "" "" "" ""
              (Some (<["720p" := "https://example.com/video/720p.mp4"]>
                       (<["1080p" := "https://example.com/video/1080p.mp4"]> ∅)))
              [Spec.toFormat Samples.h1080; Spec.toFormat Samples.h720]
              None).
Proof. vm_compute. reflexivity. Qed.

(** C6, as stated, fails on a page with two initialisation scripts: the
    formats of the second script are extracted as well. *)
Lemma second_script_is_extracted :
  exists talk',
    extractVideoURLs (Samples.site Samples.api_errors (TransportError "down"))
      Samples.two_script_page (newTalk "" "" Samples.test_url) = Return talk'
    /\ VideoFormats talk'
       = [Spec.toFormat Samples.h480; Spec.toFormat Samples.h1080; Spec.toFormat Samples.h720]
    /\ map Spec.toFormat
           (Spec.firstMatchEntries (Samples.site Samples.api_errors (TransportError "down"))
                                   Samples.two_script_page)
       = [Spec.toFormat Samples.h480]
    /\ VideoFormats talk'
       <> map Spec.toFormat
              (Spec.firstMatchEntries (Samples.site Samples.api_errors (TransportError "down"))
                                      Samples.two_script_page).
Proof.
  eexists. split; [vm_compute; reflexivity|].
  split; [reflexivity|]. split; [vm_compute; reflexivity|].
  vm_compute. discriminate.
Qed.

(* ===================================================================== *)
(** * The structured-API path                                            *)
(* ===================================================================== *)

Section GraphQLPath.

Variables (E : Env) (p : Parser) (slug url : string) (st : State).

(** The log once the API request has been sent, and once the page has
    been asked for after it. *)
Let posted : list Request := GraphQLPost (GraphqlURL p) slug url :: requests st.
Let fetched : list Request := HttpGet url :: posted.

(** The talk the path builds from a node and the page. *)
Let built (node : Node) (doc : Document) : Talk :=
  mkTalk (FirstText (h1 doc)) (FirstText (h2 doc)) url "" "" "" ""
         (Some (englishLoop (SubtitledDownloads node) ∅))
         []
         (Some (fold_left subtitleStep (SubtitledDownloads node) ∅)).

(** The path returns a talk exactly when the API answers with no error
    and a node, and the page can be fetched and read. *)
Lemma parseWithGraphQL_Ok (talk : Talk) (st' : State) :
  parseWithGraphQL E p slug url st = (Return (Ok talk), st')
  <-> exists status res node rest status' doc,
        serveGraphQL E posted = Response status (Decoded res)
        /\ Errors res = [] /\ Nodes res = node :: rest
        /\ servePage E fetched = Response status' (Decoded doc)
        /\ talk = built node doc
        /\ st' = mkState fetched (stdout st).
Proof.
  unfold parseWithGraphQL, bind, clientDo, httpGet, history, ret, lift; cbn.
  fold posted. fold fetched. split.
  - destruct (serveGraphQL E posted) as [c|status [| |res]]; try discriminate.
    destruct (Errors res) as [|e es] eqn:He; [|discriminate].
    destruct (Nodes res) as [|node rest] eqn:Hn; [discriminate|].
    cbn. fold posted. fold fetched.
    destruct (servePage E fetched) as [c|status' [| |doc]]; try discriminate.
    { destruct (refused E _); discriminate. }
    intros [= <- <-]. exists status, res, node, rest, status', doc.
    repeat split; assumption || reflexivity.
  - intros (status & res & node & rest & status' & doc & Hg & He & Hn & Hp & -> & ->).
    rewrite Hg, He, Hn. cbn. fold posted. fold fetched. rewrite Hp. reflexivity.
Qed.

(** A transport error, an error payload or an empty node list makes the
    path fail after its one request. *)
Lemma parseWithGraphQL_fails :
  (exists cause, serveGraphQL E posted = TransportError cause)
  \/ (exists status res,
        serveGraphQL E posted = Response status (Decoded res) /\ Errors res <> [])
  \/ (exists status res,
        serveGraphQL E posted = Response status (Decoded res) /\ Nodes res = []) ->
  exists e, parseWithGraphQL E p slug url st
            = (Return (Fail e), mkState posted (stdout st)).
Proof.
  unfold parseWithGraphQL, bind, clientDo, ret; cbn. fold posted.
  intros [[c ->]|[(status & res & -> & He)|(status & res & -> & Hn)]].
  - eauto.
  - destruct (Errors res); [contradiction|eauto].
  - rewrite Hn. destruct (Errors res); eauto.
Qed.

End GraphQLPath.

Lemma englishLoop_first (subs : list SubtitledDownload) (sub : SubtitledDownload)
    (m : gmap string string) :
  Spec.firstEnglish subs = Some sub ->
  englishLoop subs m !! "720p" = Some (Low sub)
  /\ englishLoop subs m !! "1080p" = Some (High sub).
Proof.
  unfold Spec.firstEnglish.
  induction subs as [|d subs IH]; cbn [find englishLoop]; [discriminate|].
  destruct (String.eqb (InternalLanguageCode d) "en").
  - intros [= ->]. unfold mapset. split.
    + rewrite lookup_insert_ne by discriminate. apply lookup_insert_eq.
    + apply lookup_insert_eq.
  - exact IH.
Qed.

(** C4. On the structured-API path, when the subtitled downloads of the
    first node hold an entry whose language code is ["en"], the talk
    returned carries the low tier of the first such entry under ["720p"]
    and its high tier under ["1080p"]; and the path does return a talk
    once the page itself can be fetched. *)
Theorem parseWithGraphQL_english_video (E : Env) (p : Parser) (slug url : string)
    (st : State) (status : Z) (res : GraphQLResult) (node : Node) (rest : list Node)
    (sub : SubtitledDownload) :
  serveGraphQL E (GraphQLPost (GraphqlURL p) slug url :: requests st)
    = Response status (Decoded res) ->
  Errors res = [] ->
  Nodes res = node :: rest ->
  Spec.firstEnglish (SubtitledDownloads node) = Some sub ->
  (forall talk st',
      parseWithGraphQL E p slug url st = (Return (Ok talk), st') ->
      Spec.mapget (VideoURLs talk) "720p" = Some (Low sub)
      /\ Spec.mapget (VideoURLs talk) "1080p" = Some (High sub))
  /\ (forall status' doc,
        servePage E (HttpGet url :: GraphQLPost (GraphqlURL p) slug url :: requests st)
          = Response status' (Decoded doc) ->
        exists talk st', parseWithGraphQL E p slug url st = (Return (Ok talk), st')).
Proof.
  intros Hg He Hn Hen. split.
  - intros talk st' Hok. apply parseWithGraphQL_Ok in Hok
      as (status0 & res0 & node0 & rest0 & status' & doc & Hg0 & _ & Hn0 & _ & -> & _).
    rewrite Hg in Hg0. injection Hg0 as _ <-. rewrite Hn in Hn0. injection Hn0 as <- _.
    cbn. apply englishLoop_first. exact Hen.
  - intros status' doc Hp. eexists _, _. apply parseWithGraphQL_Ok.
    exists status, res, node, rest, status', doc. repeat split; assumption.
Qed.

Lemma parseWithGraphQL_english_video_witness :
  (forall talk st',
      parseWithGraphQL
        (Samples.site (Samples.api_node Samples.subs_en_zh)
                      (Response 200 (Decoded Samples.bare_page)))
        New "test_slug" Samples.test_url initial = (Return (Ok talk), st') ->
      Spec.mapget (VideoURLs talk) "720p"
        = Some "https://download.ted.com/talks/test-low-en.mp4"
      /\ Spec.mapget (VideoURLs talk) "1080p"
        = Some "https://download.ted.com/talks/test-480p-en.mp4")
  /\ (forall status' doc,
        Response 200 (Decoded Samples.bare_page) = Response status' (Decoded doc) ->
        exists talk st',
          parseWithGraphQL
            (Samples.site (Samples.api_node Samples.subs_en_zh)
                          (Response 200 (Decoded Samples.bare_page)))
            New "test_slug" Samples.test_url initial = (Return (Ok talk), st')).
Proof.
  apply (parseWithGraphQL_english_video
           (Samples.site (Samples.api_node Samples.subs_en_zh)
                         (Response 200 (Decoded Samples.bare_page)))
           New "test_slug" Samples.test_url initial 200
           (mkGraphQLResult [mkNode Samples.no_native Samples.subs_en_zh] [])
           (mkNode Samples.no_native Samples.subs_en_zh) []
           (mkSubtitledDownload "https://download.ted.com/talks/test-low-en.mp4"
                                "https://download.ted.com/talks/test-480p-en.mp4"
                                "en" "English"));
    reflexivity.
Defined.

Lemma find_app {A : Type} (P : A -> bool) (l1 l2 : list A) :
  find P (l1 ++ l2)
  = match find P l1 with
    | Some a => Some a
    | None => find P l2
    end.
Proof.
  induction l1 as [|a l1 IH]; cbn [app find]; [reflexivity|].
  destruct (P a); [reflexivity|exact IH].
Qed.

Lemma find_none_all {A : Type} (P : A -> bool) (l : list A) :
  (forall a, In a l -> P a = false) -> find P l = None.
Proof.
  induction l as [|a l IH]; intros Hall; cbn [find]; [reflexivity|].
  rewrite (Hall a) by (left; reflexivity). apply IH.
  intros; apply Hall; right; assumption.
Qed.

(** The last accepted element, when no later element is accepted. *)
Lemma findLast_here {A : Type} (P : A -> bool) (pre post : list A) (a : A) :
  P a = true ->
  (forall b, In b post -> P b = false) ->
  Spec.findLast P (pre ++ a :: post) = Some a.
Proof.
  intros Ha Hpost. unfold Spec.findLast.
  rewrite rev_app_distr. cbn [rev]. rewrite <- app_assoc. cbn [app].
  rewrite find_app, find_none_all.
  - cbn [find]. rewrite Ha. reflexivity.
  - intros b Hb. apply Hpost. apply in_rev. exact Hb.
Qed.

Lemma findLast_Some {A : Type} (P : A -> bool) (l : list A) (a : A) :
  Spec.findLast P l = Some a -> In a l /\ P a = true.
Proof.
  unfold Spec.findLast. intros H. apply find_some in H as [Hin HP].
  split; [apply in_rev; exact Hin|exact HP].
Qed.

(** The subtitle map of the structured-API path, key by key. *)
Lemma subtitle_fold_lookup (subs : list SubtitledDownload) (code : string) :
  fold_left subtitleStep subs ∅ !! code
  = Low <$> Spec.lastSubtitleFor code subs.
Proof.
  unfold Spec.lastSubtitleFor.
  etransitivity.
  - exact (guarded_fold_lookup
             (fun d => negb (String.eqb (Low d) ""))
             (fun d => ToLower (InternalLanguageCode d)) Low subs ∅ code).
  - destruct (Spec.findLast _ subs); reflexivity.
Qed.

(** C5, amended. On the structured-API path, every entry of the first
    node's subtitled downloads that has a non-empty low URL, and after
    which no entry with a non-empty low URL has the same lower-cased
    language code, gives [SubtitleURLs[lower-cased code] = low]; every
    entry of [SubtitleURLs] comes from an entry of the list with a
    non-empty low URL, so entries with an empty low URL add nothing; and
    the map is a function of the list alone, whatever [VideoURLs] holds.
    The path returns a talk once the page itself can be fetched. *)
Theorem parseWithGraphQL_subtitles (E : Env) (p : Parser) (slug url : string)
    (st : State) (status : Z) (res : GraphQLResult) (node : Node) (rest : list Node) :
  serveGraphQL E (GraphQLPost (GraphqlURL p) slug url :: requests st)
    = Response status (Decoded res) ->
  Errors res = [] ->
  Nodes res = node :: rest ->
  (forall talk st',
      parseWithGraphQL E p slug url st = (Return (Ok talk), st') ->
      (forall pre sub post,
          SubtitledDownloads node = (pre ++ sub :: post)%list ->
          Low sub <> "" ->
          (forall d, In d post -> Low d <> "" ->
                     ToLower (InternalLanguageCode d) <> ToLower (InternalLanguageCode sub)) ->
          Spec.mapget (SubtitleURLs talk) (ToLower (InternalLanguageCode sub))
            = Some (Low sub))
      /\ (forall code v,
            Spec.mapget (SubtitleURLs talk) code = Some v ->
            exists d, In d (SubtitledDownloads node) /\ Low d <> ""
                      /\ ToLower (InternalLanguageCode d) = code /\ Low d = v)
      /\ (forall code,
            Spec.mapget (SubtitleURLs talk) code
            = Low <$> Spec.lastSubtitleFor code (SubtitledDownloads node)))
  /\ (forall status' doc,
        servePage E (HttpGet url :: GraphQLPost (GraphqlURL p) slug url :: requests st)
          = Response status' (Decoded doc) ->
        exists talk st', parseWithGraphQL E p slug url st = (Return (Ok talk), st')).
Proof.
  intros Hg He Hn. split.
  - intros talk st' Hok. apply parseWithGraphQL_Ok in Hok
      as (status0 & res0 & node0 & rest0 & status' & doc & Hg0 & _ & Hn0 & _ & -> & _).
    rewrite Hg in Hg0. injection Hg0 as _ <-. rewrite Hn in Hn0. injection Hn0 as <- _.
    cbn [Spec.mapget SubtitleURLs]. split; [|split].
    + intros pre sub post Hsplit Hlow Hlater.
      rewrite subtitle_fold_lookup. unfold Spec.lastSubtitleFor.
      rewrite Hsplit, findLast_here with (a := sub); [reflexivity| |].
      * apply andb_true_iff. split.
        -- apply negb_true_iff, String.eqb_neq. exact Hlow.
        -- apply String.eqb_refl.
      * intros d Hd. destruct (String.eqb_spec (Low d) "") as [|Hne]; [reflexivity|].
        cbn [negb andb]. apply String.eqb_neq. apply Hlater; assumption.
    + intros code v. rewrite subtitle_fold_lookup. unfold Spec.lastSubtitleFor.
      destruct (Spec.findLast _ _) as [d|] eqn:Hd; [|discriminate].
      intros [= <-]. apply findLast_Some in Hd as [Hin HP].
      apply andb_true_iff in HP as [H1 H2].
      exists d. repeat split.
      * exact Hin.
      * apply String.eqb_neq, negb_true_iff. exact H1.
      * apply String.eqb_eq. exact H2.
    + intros code. apply subtitle_fold_lookup.
  - intros status' doc Hp. eexists _, _. apply parseWithGraphQL_Ok.
    exists status, res, node, rest, status', doc. repeat split; assumption.
Qed.

(** The two entries of the parser tests give the two subtitle URLs. *)
Lemma parseWithGraphQL_subtitles_witness :
  exists talk st',
    parseWithGraphQL
      (Samples.site (Samples.api_node Samples.subs_en_zh)
                    (Response 200 (Decoded Samples.bare_page)))
      New "test_slug" Samples.test_url initial = (Return (Ok talk), st')
    /\ Spec.mapget (SubtitleURLs talk) "en"
       = Some "https://download.ted.com/talks/test-low-en.mp4"
    /\ Spec.mapget (SubtitleURLs talk) "zh-cn"
       = Some "https://download.ted.com/talks/test-low-zh-cn.mp4".
Proof.
  pose proof (parseWithGraphQL_subtitles
                (Samples.site (Samples.api_node Samples.subs_en_zh)
                              (Response 200 (Decoded Samples.bare_page)))
                New "test_slug" Samples.test_url initial 200
                (mkGraphQLResult [mkNode Samples.no_native Samples.subs_en_zh] [])
                (mkNode Samples.no_native Samples.subs_en_zh) []
                eq_refl eq_refl eq_refl) as [Hprop Hret].
  destruct (Hret 200 Samples.bare_page eq_refl) as (talk & st' & Hok).
  exists talk, st'. split; [exact Hok|].
  destruct (Hprop talk st' Hok) as (_ & _ & Hall).
  split; rewrite Hall; reflexivity.
Defined.

(** C5, as stated, fails when two entries share a language code: the
    first entry has a non-empty low URL ["A"], yet [SubtitleURLs["en"]]
    is the low URL ["B"] of the second. *)
Lemma first_subtitle_is_overwritten :
  exists talk st',
    parseWithGraphQL
      (Samples.site (Samples.api_node Samples.subs_twice_en)
                    (Response 200 (Decoded Samples.bare_page)))
      New "test_slug" Samples.test_url initial = (Return (Ok talk), st')
    /\ In (mkSubtitledDownload "A" "" "en" "English") Samples.subs_twice_en
    /\ "A" <> ""
    /\ Spec.mapget (SubtitleURLs talk) (ToLower "en") = Some "B"
    /\ Spec.mapget (SubtitleURLs talk) (ToLower "en") <> Some "A".
Proof.
  eexists _, _. split; [vm_compute; reflexivity|].
  split; [left; reflexivity|]. split; [discriminate|].
  split; [vm_compute; reflexivity|]. vm_compute. discriminate.
Qed.

(* ===================================================================== *)
(** * The markup path                                                    *)
(* ===================================================================== *)

Lemma maplen_nonneg (m : option (gmap string string)) : 0 <= maplen m.
Proof. destruct m; cbn; lia. Qed.

Section MarkupPath.

Variables (E : Env) (p : Parser) (url : string) (st : State).

Let asked : list Request := ClientGet url :: requests st.

(** The talk as it stands before the extractors run. *)
Let titled (doc : Document) : Talk :=
  set_Speaker (set_Title (newTalk "" "" url) (FirstText (h1 doc))) (FirstText (h2 doc)).

(** The markup path reports the no-data error exactly when the page was
    fetched and read, the extraction returned, and both maps came out
    empty. *)
Lemma parseWithHTML_empty (st' : State) :
  parseWithHTML E p url st = (Return (Fail ErrNoVideoOrSubtitle), st')
  <-> exists status doc talk,
        servePage E asked = Response status (Decoded doc)
        /\ extractVideoURLs E doc (titled doc) = Return talk
        /\ maplen (VideoURLs talk) = 0
        /\ maplen (SubtitleURLs (extractSubtitleURLs doc talk)) = 0
        /\ st' = mkState asked (stdout st).
Proof.
  unfold parseWithHTML, bind, clientGet, ret, lift; cbn. fold asked. split.
  - destruct (servePage E asked) as [c|status [| |doc]]; try discriminate.
    fold (titled doc).
    destruct (extractVideoURLs E doc (titled doc)) as [talk|] eqn:Hx; [|discriminate].
    cbn.
    destruct (Z.eqb_spec (maplen (VideoURLs talk)) 0) as [Hv|]; [|discriminate].
    destruct (Z.eqb_spec (Z.of_nat (size (fold_left anchorStep (langAnchors doc) ∅))) 0)
      as [Hs|]; [|discriminate].
    intros [= <-]. exists status, doc, talk. repeat split; assumption.
  - intros (status & doc & talk & -> & Hx & Hv & Hs & ->).
    fold (titled doc). rewrite Hx. cbn. cbn in Hs. rewrite Hv, Hs. reflexivity.
Qed.

(** A talk returned by the markup path holds a video or subtitle URL. *)
Lemma parseWithHTML_hasData (talk : Talk) (st' : State) :
  parseWithHTML E p url st = (Return (Ok talk), st') -> Spec.hasData talk.
Proof.
  unfold parseWithHTML, bind, clientGet, ret, lift; cbn. fold asked.
  destruct (servePage E asked) as [c|status [| |doc]]; try discriminate.
  fold (titled doc).
  destruct (extractVideoURLs E doc (titled doc)) as [t|] eqn:Hx; [|discriminate].
  cbn.
  destruct (Z.eqb_spec (maplen (VideoURLs t)) 0) as [Hv|Hv]; cbn [andb].
  - destruct (Z.eqb_spec (Z.of_nat (size (fold_left anchorStep (langAnchors doc) ∅))) 0)
      as [Hs|Hs]; [discriminate|].
    intros [= <- _]. right; left. cbn. lia.
  - intros [= <- _]. left. cbn. pose proof (maplen_nonneg (VideoURLs t)). lia.
Qed.

(** A transport error on the page fetch is handed to the caller. *)
Lemma parseWithHTML_transport (cause : string) :
  servePage E asked = TransportError cause ->
  parseWithHTML E p url st
  = (Return (Fail (ErrFetchTalkPage cause)), mkState asked (stdout st)).
Proof.
  intros H. unfold parseWithHTML, bind, clientGet, ret; cbn. fold asked.
  rewrite H. reflexivity.
Qed.

End MarkupPath.

(** C1, at the input where the code departs from it: the API answers
    with a node that has no subtitled downloads, the page is served, and
    [ParseURL] returns a talk with two empty maps and no video format. *)
Theorem ParseURL_returns_empty_talk :
  ParseURL (Samples.site (Samples.api_node []) (Response 200 (Decoded Samples.bare_page)))
           New Samples.test_url initial
  = (Return (Ok (mkTalk "Test Title" "Test Speaker" Samples.test_url "" "" "" ""
                        (Some ∅) [] (Some ∅))),
     mkState [HttpGet Samples.test_url;
              GraphQLPost "https://www.ted.com/graphql" "test_slug" Samples.test_url] [])
  /\ ~ Spec.hasData (mkTalk "Test Title" "Test Speaker" Samples.test_url "" "" "" ""
                            (Some ∅) [] (Some ∅)).
Proof.
  split; [vm_compute; reflexivity|].
  intros [H|[H|H]]; [vm_compute in H; discriminate ..|apply H; reflexivity].
Qed.

(* ===================================================================== *)
(** * Falling back from the API to the markup                            *)
(* ===================================================================== *)

(** C2. For a valid URL, when the API call ends in a transport error, an
    error payload or an empty node list, [ParseURL] goes on to the markup
    path and returns what that path returns; and the markup path reports
    the no-data error exactly when the page was read and both [VideoURLs]
    and [SubtitleURLs] came out of the extraction empty. *)
Theorem ParseURL_falls_back (E : Env) (p : Parser) (url u : string) (st : State) :
  SplitN url "?" 2 !! 0%nat = Some u ->
  invalidURL (slugOfParts (Split u "/")) u = false ->
  (exists cause,
      serveGraphQL E (GraphQLPost (GraphqlURL p) (slugOfParts (Split u "/")) url :: requests st)
      = TransportError cause)
  \/ (exists status res,
        serveGraphQL E (GraphQLPost (GraphqlURL p) (slugOfParts (Split u "/")) url :: requests st)
        = Response status (Decoded res) /\ Errors res <> [])
  \/ (exists status res,
        serveGraphQL E (GraphQLPost (GraphqlURL p) (slugOfParts (Split u "/")) url :: requests st)
        = Response status (Decoded res) /\ Nodes res = []) ->
  ParseURL E p url st
  = parseWithHTML E p url
      (mkState (GraphQLPost (GraphqlURL p) (slugOfParts (Split u "/")) url :: requests st)
               (stdout st))
  /\ forall st0 st1,
       parseWithHTML E p url st0 = (Return (Fail ErrNoVideoOrSubtitle), st1)
       <-> exists status doc talk,
             servePage E (ClientGet url :: requests st0) = Response status (Decoded doc)
             /\ extractVideoURLs E doc
                  (set_Speaker (set_Title (newTalk "" "" url) (FirstText (h1 doc)))
                               (FirstText (h2 doc)))
                = Return talk
             /\ maplen (VideoURLs talk) = 0
             /\ maplen (SubtitleURLs (extractSubtitleURLs doc talk)) = 0
             /\ st1 = mkState (ClientGet url :: requests st0) (stdout st0).
Proof.
  intros Hu Hvalid Hfail. split.
  - unfold ParseURL. rewrite Hu, Hvalid.
    destruct (parseWithGraphQL_fails E p _ url st Hfail) as [e He].
    unfold bind. rewrite He. reflexivity.
  - intros st0 st1. apply parseWithHTML_empty.
Qed.

Lemma ParseURL_falls_back_witness :
  ParseURL (Samples.site Samples.api_errors (Response 200 (Decoded Samples.talk_page)))
           New Samples.test_url initial
  = parseWithHTML (Samples.site Samples.api_errors (Response 200 (Decoded Samples.talk_page)))
                  New Samples.test_url
                  (mkState [GraphQLPost "https://www.ted.com/graphql" "test_slug"
                                        Samples.test_url] []).
Proof.
  apply (ParseURL_falls_back
           (Samples.site Samples.api_errors (Response 200 (Decoded Samples.talk_page)))
           New Samples.test_url Samples.test_url initial).
  - reflexivity.
  - reflexivity.
  - right; left. eexists _, _. split; [reflexivity|discriminate].
Defined.

(** The fallback of the parser tests: the API reports an error and the
    page gives both formats and both subtitles. *)
Example fallback_finds_media :
  exists talk st',
    ParseURL (Samples.site Samples.api_errors (Response 200 (Decoded Samples.talk_page)))
             New Samples.test_url initial = (Return (Ok talk), st')
    /\ Title talk = "Test Title"
    /\ Spec.mapget (VideoURLs talk) "720p" = Some "https://example.com/video/720p.mp4"
    /\ Spec.mapget (SubtitleURLs talk) "zh" = Some "https://www.ted.com/talks/subtitles/zh".
Proof. eexists _, _. repeat split; vm_compute; reflexivity. Qed.

(** With no node and a bare page the caller gets the no-data error. *)
Example fallback_finds_nothing :
  ParseURL (Samples.site Samples.api_no_nodes (Response 200 (Decoded Samples.bare_page)))
           New Samples.test_url initial
  = (Return (Fail ErrNoVideoOrSubtitle),
     mkState [ClientGet Samples.test_url;
              GraphQLPost "https://www.ted.com/graphql" "test_slug" Samples.test_url] []).
Proof. vm_compute. reflexivity. Qed.

(* ===================================================================== *)
(** * Page fetches and status codes                                      *)
(* ===================================================================== *)

Lemma extractVideoURLs_mapStatus (f : Z -> Z) (E : Env) (doc : Document) (talk : Talk) :
  extractVideoURLs (Spec.mapStatus f E) doc talk = extractVideoURLs E doc talk.
Proof.
  unfold extractVideoURLs. generalize (scripts doc) as texts. intros texts. revert talk.
  induction texts as [|x rest IH]; intros talk; [reflexivity|].
  cbn [eachScript].
  change (scriptStep (Spec.mapStatus f E) talk x) with (scriptStep E talk x).
  destruct (scriptStep E talk x); [apply IH|reflexivity].
Qed.

(** C7, amended. On both markup fetches (the fallback path and the
    per-talk detail path) a transport error is handed to the caller as
    an error and nothing is parsed. The status code of a response is not
    consulted: rewriting the status codes of the site in any way leaves
    the outcome of either call as it was, so a response with a non-2xx
    status is parsed like any other. *)
Theorem markup_fetch_errors (E : Env) (p : Parser) (talk : Talk) (st : State) :
  (forall cause,
      servePage E (ClientGet (URL talk) :: requests st) = TransportError cause ->
      parseWithHTML E p (URL talk) st
      = (Return (Fail (ErrFetchTalkPage cause)),
         mkState (ClientGet (URL talk) :: requests st) (stdout st))
      /\ parseTalkDetails E p talk st
         = (Return (talk, Some (ErrFetchTalkPage cause)),
            mkState (ClientGet (URL talk) :: requests st) (stdout st)))
  /\ (forall f,
        parseWithHTML (Spec.mapStatus f E) p (URL talk) st = parseWithHTML E p (URL talk) st
        /\ parseTalkDetails (Spec.mapStatus f E) p talk st = parseTalkDetails E p talk st).
Proof.
  split.
  - intros cause H. split; [apply parseWithHTML_transport; exact H|].
    unfold parseTalkDetails, bind, clientGet, ret; cbn. rewrite H. reflexivity.
  - intros f. split.
    + unfold parseWithHTML, bind, clientGet, ret, lift; cbn.
      destruct (servePage E _) as [c|status [| |doc]]; try reflexivity.
      rewrite extractVideoURLs_mapStatus. reflexivity.
    + unfold parseTalkDetails, bind, clientGet, ret, lift; cbn.
      destruct (servePage E _) as [c|status [| |doc]]; try reflexivity.
      rewrite extractVideoURLs_mapStatus. reflexivity.
Qed.

Lemma markup_fetch_errors_witness :
  parseWithHTML (Samples.site Samples.api_errors (TransportError "connection refused"))
                New Samples.test_url initial
  = (Return (Fail (ErrFetchTalkPage "connection refused")),
     mkState [ClientGet Samples.test_url] []).
Proof.
  apply (markup_fetch_errors
           (Samples.site Samples.api_errors (TransportError "connection refused"))
           New (newTalk "" "" Samples.test_url) initial).
  reflexivity.
Defined.

(** C7, as stated, fails for a response with status 404: the fallback
    path parses its page and returns a talk, and the detail path reports
    no error. *)
Lemma not_found_page_is_parsed :
  (exists talk st',
      parseWithHTML (Samples.site Samples.api_errors (Response 404 (Decoded Samples.error_page)))
                    New Samples.test_url initial = (Return (Ok talk), st')
      /\ Title talk = "Not Found"
      /\ Spec.mapget (SubtitleURLs talk) "en" = Some "https://www.ted.com/talks/subtitles/en")
  /\ (exists talk st',
        parseTalkDetails (Samples.site Samples.api_errors (Response 404 (Decoded Samples.bare_page)))
                         New (newTalk "" "" Samples.test_url) initial
        = (Return (talk, None), st')).
Proof.
  split.
  - eexists _, _. repeat split; vm_compute; reflexivity.
  - eexists _, _. vm_compute. reflexivity.
Qed.

(** The parser test with a 404 answer: the error the caller sees is the
    no-data error of the parsed, empty page, not a fetch error. *)
Example not_found_empty_page :
  ParseURL (Samples.site Samples.api_errors
              (Response 404 (Decoded (mkDocument [] [] [] [] []))))
           New Samples.test_url initial
  = (Return (Fail ErrNoVideoOrSubtitle),
     mkState [ClientGet Samples.test_url;
              GraphQLPost "https://www.ted.com/graphql" "test_slug" Samples.test_url] []).
Proof. vm_compute. reflexivity. Qed.

(* ===================================================================== *)
(** * Queries                                                            *)
(* ===================================================================== *)

Section SpaceFacts.

Let sp : string := " ".

Lemma prefix_space (a : ascii) (s : string) :
  String.prefix sp (String a s) = Ascii.eqb " "%char a.
Proof.
  unfold sp. cbn [String.prefix].
  destruct (Ascii.ascii_dec " " a) as [<-|Hne].
  - destruct s; reflexivity.
  - symmetry. apply Ascii.eqb_neq. exact Hne.
Qed.

Lemma index_nat_space_cons (a : ascii) (s : string) :
  index_nat (String a s) sp
  = if Ascii.eqb " "%char a then Some O else option_map S (index_nat s sp).
Proof. cbn [index_nat]. rewrite prefix_space. reflexivity. Qed.

Lemma index_nat_space_none (s : string) :
  index_nat s sp = None <-> Spec.hasSpace s = false.
Proof.
  unfold Spec.hasSpace. induction s as [|a s IH].
  - cbn. tauto.
  - rewrite index_nat_space_cons. cbn [Spec.anyByte].
    destruct (Ascii.eqb " " a); cbn [orb]; [split; discriminate|].
    destruct (index_nat s sp); cbn [option_map].
    + split; [discriminate|]. intros H. apply IH in H. discriminate.
    + split; [intros _; apply IH; reflexivity|reflexivity].
Qed.

(** [strings.Contains(query, " ")] sees the space character and no
    other. *)
Lemma Contains_space (s : string) : Contains s sp = Spec.hasSpace s.
Proof.
  unfold Contains, Index.
  destruct (index_nat s sp) as [i|] eqn:Hi.
  - destruct (Spec.hasSpace s) eqn:Hs.
    + apply Z.leb_le. lia.
    + apply index_nat_space_none in Hs. congruence.
  - apply index_nat_space_none in Hi. rewrite Hi. reflexivity.
Qed.

Lemma map_plus_no_space (s : string) :
  Spec.hasSpace s = false -> map_str Spec.plusForSpace s = s.
Proof.
  unfold Spec.hasSpace. induction s as [|a s IH]; [reflexivity|].
  cbn [Spec.anyByte map_str]. intros H. apply orb_false_iff in H as [Ha Hs].
  rewrite IH by exact Hs. unfold Spec.plusForSpace.
  rewrite Ascii.eqb_sym, Ha. reflexivity.
Qed.

(** [strings.ReplaceAll(query, " ", "+")] turns every space into a plus
    sign and changes nothing else. *)
Lemma replace_loop_space (s : string) :
  forall fuel, (String.length s <= fuel)%nat ->
               replace_loop fuel s sp "+" = map_str Spec.plusForSpace s.
Proof.
  induction s as [|a s IH]; intros fuel Hlen.
  - destruct fuel; reflexivity.
  - destruct fuel as [|k]; [cbn in Hlen; lia|].
    cbn [String.length] in Hlen. cbn [replace_loop map_str].
    rewrite index_nat_space_cons. unfold Spec.plusForSpace at 1.
    rewrite (Ascii.eqb_sym a). destruct (Ascii.eqb " " a) eqn:Ha.
    + cbn. rewrite IH by lia. reflexivity.
    + pose proof (IH (S k) ltac:(lia)) as IHk. cbn [replace_loop] in IHk.
      destruct (index_nat s sp) as [m|]; cbn [option_map].
      * cbn. cbn in IHk. rewrite <- IHk. reflexivity.
      * rewrite <- IHk. reflexivity.
Qed.

Lemma ReplaceAll_space (s : string) :
  ReplaceAll s sp "+" = map_str Spec.plusForSpace s.
Proof. apply replace_loop_space. lia. Qed.

End SpaceFacts.

(* ===================================================================== *)
(** * The listing search                                                 *)
(* ===================================================================== *)

Section Listing.

Variables (E : Env) (p : Parser).

(** The detail fetch sends one request and prints nothing. *)
Lemma parseTalkDetails_state (talk : Talk) (st : State) :
  snd (parseTalkDetails E p talk st)
  = mkState (ClientGet (URL talk) :: requests st) (stdout st).
Proof.
  unfold parseTalkDetails, bind, clientGet, ret, lift; cbn.
  destruct (servePage E _) as [c|status [| |doc]]; try reflexivity.
  destruct (extractVideoURLs E doc talk); reflexivity.
Qed.

(** A failed detail fetch leaves the talk as the listing gave it. *)
Lemma parseTalkDetails_failed (talk t : Talk) (err : error) (st st1 : State) :
  parseTalkDetails E p talk st = (Return (t, Some err), st1) -> t = talk.
Proof.
  unfold parseTalkDetails, bind, clientGet, ret, lift; cbn.
  destruct (servePage E _) as [c|status [| |doc]]; try (intros [= <- _ _]; reflexivity).
  destruct (extractVideoURLs E doc talk); discriminate.
Qed.

(** Requests and output only grow along the loop, and so does the
    slice of talks. *)
Lemma entryStep_grows (limit i : Z) (s : ListingEntry) (talks : list Talk) (st : State) :
  (exists later out,
      requests (snd (entryStep E p limit i s talks st)) = (later ++ requests st)%list
      /\ stdout (snd (entryStep E p limit i s talks st)) = (out ++ stdout st)%list)
  /\ forall talks' st',
       entryStep E p limit i s talks st = (Return talks', st') ->
       exists more, talks' = (talks ++ more)%list
                    /\ (i < limit -> length more = 1%nat).
Proof.
  unfold entryStep. destruct (Z.ltb_spec i limit) as [Hlt|Hge].
  - replace (limit <=? i) with false by (symmetry; apply Z.leb_gt; lia).
    unfold bind. pose proof (parseTalkDetails_state (entryTalk s) st) as Hst.
    destruct (parseTalkDetails E p (entryTalk s) st) as [[[t oe]|] st1]; cbn in Hst; subst st1.
    + destruct oe as [err|]; cbn; (split;
        [ first [ exists [ClientGet (URL (entryTalk s))], [Warning (URL (entryTalk s)) err]
                | exists [ClientGet (URL (entryTalk s))], [] ]; split; reflexivity
        | intros talks' st' [= <- _]; exists [t]; split; [reflexivity|reflexivity] ]).
    + cbn. split; [exists [ClientGet (URL (entryTalk s))], []; split; reflexivity|discriminate].
  - replace (limit <=? i) with true by (symmetry; apply Z.leb_le; lia).
    cbn. split; [exists [], []; split; reflexivity|].
    intros talks' st' [= <- _]. exists []. rewrite app_nil_r. split; [reflexivity|lia].
Qed.

Lemma eachEntry_grows (limit : Z) (es : list ListingEntry) :
  forall (i : Z) (talks : list Talk) (st : State),
    (exists later out,
        requests (snd (eachEntry E p limit i es talks st)) = (later ++ requests st)%list
        /\ stdout (snd (eachEntry E p limit i es talks st)) = (out ++ stdout st)%list)
    /\ forall talks' st',
         eachEntry E p limit i es talks st = (Return talks', st') ->
         exists more, talks' = (talks ++ more)%list
                      /\ (i + Z.of_nat (length es) <= limit -> length more = length es).
Proof.
  induction es as [|s rest IH]; intros i talks st.
  - cbn. split; [exists [], []; split; reflexivity|].
    intros talks' st' [= <- _]. exists []. rewrite app_nil_r. split; reflexivity.
  - cbn [eachEntry]. unfold bind.
    destruct (entryStep_grows limit i s talks st) as [(l1 & o1 & Hr1 & Ho1) Hstep].
    destruct (entryStep E p limit i s talks st) as [[t1|] st1] eqn:Hs1; cbn in Hr1, Ho1.
    + destruct (IH (i + 1) t1 st1) as [(l2 & o2 & Hr2 & Ho2) Hrest].
      split.
      * exists (l2 ++ l1)%list, (o2 ++ o1)%list.
        rewrite Hr2, Ho2, Hr1, Ho1, <- !app_assoc. split; reflexivity.
      * intros talks' st' Hrun.
        destruct (Hstep t1 st1 eq_refl) as (m1 & -> & Hlen1).
        destruct (Hrest talks' st' Hrun) as (m2 & -> & Hlen2).
        exists (m1 ++ m2)%list. rewrite app_assoc. split; [reflexivity|].
        intros Hlim. rewrite length_app. cbn [length] in Hlim |- *.
        rewrite Hlen1, Hlen2 by lia. reflexivity.
    + split; [exists l1, o1; split; assumption|discriminate].
Qed.

(** The loop over a listing, cut in two. *)
Lemma eachEntry_app (limit : Z) (pre post : list ListingEntry) :
  forall (i : Z) (talks : list Talk) (st : State),
    eachEntry E p limit i (pre ++ post) talks st
    = match eachEntry E p limit i pre talks st with
      | (Return t, st') => eachEntry E p limit (i + Z.of_nat (length pre)) post t st'
      | (Panicked, st') => (Panicked, st')
      end.
Proof.
  induction pre as [|s pre IH]; intros i talks st.
  - cbn. rewrite Z.add_0_r. reflexivity.
  - cbn [app eachEntry]. unfold bind.
    destruct (entryStep E p limit i s talks st) as [[t1|] st1]; [|reflexivity].
    rewrite IH. replace (i + 1 + Z.of_nat (length pre)) with (i + Z.of_nat (length (s :: pre)))
      by (cbn [length]; lia).
    reflexivity.
Qed.

(** One request for the listing comes first, whatever follows. *)
Lemma parseTalksList_requests (url : string) (limit : Z) (st : State) :
  exists later,
    requests (snd (parseTalksList E p url limit st))
    = (later ++ ClientGet url :: requests st)%list.
Proof.
  unfold parseTalksList, bind, clientGet, ret; cbn.
  destruct (servePage E _) as [c|status [| |doc]]; try (exists []; reflexivity).
  match goal with |- context [eachEntry E p limit 0 ?es ?t ?s] =>
    destruct (eachEntry_grows limit es 0 t s) as [(l & o & Hr & _) _];
    destruct (eachEntry E p limit 0 es t s) as [[talks|] st1] end;
    cbn in Hr |- *; exists l; exact Hr.
Qed.

End Listing.

(** C8, amended. [ParseTopic] treats a query without a space character
    as a topic tag and hands the client the URL
    [{base}/talks?topics[]={query}]; a query with a space character is a
    free-text title, and the URL handed to the client is
    [{base}/search?q=] followed by the title with every space turned into
    a plus sign. Only the space character counts: other white space, a
    no-break space for one, does not make a query a title. The call for
    the listing is the first call to the client. *)
Theorem ParseTopic_request (E : Env) (p : Parser) (query : string) (limit : Z) (st : State) :
  exists url,
    url = (if Spec.hasSpace query
           then baseURL +:+ "/search?q=" +:+ map_str Spec.plusForSpace query
           else baseURL +:+ "/talks?topics[]=" +:+ query)
    /\ ParseTopic E p query limit st = parseTalksList E p url limit st
    /\ exists later,
         requests (snd (ParseTopic E p query limit st))
         = (later ++ ClientGet url :: requests st)%list.
Proof.
  eexists. split; [reflexivity|].
  assert (Heq : ParseTopic E p query limit st
                = parseTalksList E p
                    (if Spec.hasSpace query
                     then baseURL +:+ "/search?q=" +:+ map_str Spec.plusForSpace query
                     else baseURL +:+ "/talks?topics[]=" +:+ query) limit st).
  { unfold ParseTopic. rewrite Contains_space, ReplaceAll_space.
    destruct (Spec.hasSpace query); reflexivity. }
  split; [exact Heq|]. rewrite Heq. apply parseTalksList_requests.
Qed.

(** C8, as stated, fails for a query whose words are separated by a
    no-break space: it contains white space, yet the topic listing is
    asked for, and the search is not. *)
Lemma nbsp_query_is_a_topic :
  Spec.hasWhitespace Samples.nbsp_query = true
  /\ Spec.hasSpace Samples.nbsp_query = false
  /\ ParseTopic (Samples.site Samples.api_errors
                   (Response 200 (Decoded Samples.no_block_page)))
                New Samples.nbsp_query 1 initial
     = (Return (Ok []),
        mkState [ClientGet ("https://www.ted.com/talks?topics[]=" +:+ Samples.nbsp_query)] []).
Proof. repeat split; vm_compute; reflexivity. Qed.

Example title_query_request :
  ParseTopic (Samples.site Samples.api_errors (TransportError "down")) New
             "The power of vulnerability" 1 initial
  = (Return (Fail (ErrFetchTalksList "down")),
     mkState [ClientGet "https://www.ted.com/search?q=The+power+of+vulnerability"] []).
Proof. vm_compute. reflexivity. Qed.

(** X20. In the listing search, when the enrichment of an entry returns
    an error (its talk page cannot be fetched or parsed), the loop goes on
    with the remaining entries: the talk is appended as the listing gave
    it, with its title, speaker and URL, and the error is printed as a
    warning. When the remaining entries have been processed without a
    panic, the slice returned holds that talk at the position of its
    entry. *)
Theorem parseTalksList_keeps_failed_entry (E : Env) (p : Parser) (url : string)
    (limit : Z) (st : State) (status : Z) (doc : Document)
    (pre post : list ListingEntry) (s : ListingEntry)
    (talks0 : list Talk) (st0 st1 : State) (t : Talk) (err : error) :
  servePage E (ClientGet url :: requests st) = Response status (Decoded doc) ->
  listing doc = (pre ++ s :: post)%list ->
  Z.of_nat (length pre) < limit ->
  eachEntry E p limit 0 pre [] (mkState (ClientGet url :: requests st) (stdout st))
    = (Return talks0, st0) ->
  parseTalkDetails E p (entryTalk s) st0 = (Return (t, Some err), st1) ->
  parseTalksList E p url limit st
  = (let* talks := eachEntry E p limit (Z.of_nat (length pre) + 1) post
                     (talks0 ++ [entryTalk s])%list in
     ret (Ok talks))
      (mkState (requests st1) (Warning (URL (entryTalk s)) err :: stdout st1))
  /\ forall talks' st',
       eachEntry E p limit (Z.of_nat (length pre) + 1) post (talks0 ++ [entryTalk s])%list
         (mkState (requests st1) (Warning (URL (entryTalk s)) err :: stdout st1))
       = (Return talks', st') ->
       parseTalksList E p url limit st = (Return (Ok talks'), st')
       /\ talks' !! length pre = Some (entryTalk s)
       /\ In (Warning (URL (entryTalk s)) err) (stdout st').
Proof.
  intros Hpage Hlist Hlim Hpre Hfail.
  assert (Ht : t = entryTalk s) by (eapply parseTalkDetails_failed; exact Hfail).
  subst t.
  assert (Hrun : parseTalksList E p url limit st
                 = (let* talks := eachEntry E p limit (Z.of_nat (length pre) + 1) post
                                    (talks0 ++ [entryTalk s])%list in
                    ret (Ok talks))
                     (mkState (requests st1) (Warning (URL (entryTalk s)) err :: stdout st1))).
  { unfold parseTalksList, bind, clientGet. cbv beta iota zeta.
    rewrite Hpage. cbv beta iota. rewrite Hlist, eachEntry_app, Hpre, Z.add_0_l.
    cbn [eachEntry]. unfold bind, entryStep.
    replace (limit <=? Z.of_nat (length pre)) with false by (symmetry; apply Z.leb_gt; lia).
    unfold bind. rewrite Hfail. reflexivity. }
  split; [exact Hrun|].
  intros talks' st' Hrest. rewrite Hrun. unfold bind. rewrite Hrest. cbn.
  split; [reflexivity|].
  destruct (eachEntry_grows E p limit post (Z.of_nat (length pre) + 1)
              (talks0 ++ [entryTalk s])%list
              (mkState (requests st1) (Warning (URL (entryTalk s)) err :: stdout st1)))
    as [(later & out & _ & Hout) Hmore].
  rewrite Hrest in Hout. cbn in Hout.
  destruct (Hmore talks' st' Hrest) as (more & -> & _).
  destruct (eachEntry_grows E p limit pre 0 []
              (mkState (ClientGet url :: requests st) (stdout st))) as [_ Hpre'].
  destruct (Hpre' talks0 st0 Hpre) as (m0 & Hm0 & Hlen0). cbn in Hm0. subst m0.
  split.
  - rewrite <- app_assoc. rewrite lookup_app_r by (rewrite Hlen0; lia).
    rewrite Hlen0 by lia. rewrite Nat.sub_diag. reflexivity.
  - rewrite Hout. apply in_or_app. right. left. reflexivity.
Qed.

Lemma parseTalksList_keeps_failed_entry_witness :
  exists talks' st',
    parseTalksList Samples.listing_site New Samples.listing_url 2 initial
    = (Return (Ok talks'), st')
    /\ talks' !! 0%nat
       = Some (newTalk "The power of education" "John Doe"
                       "https://www.ted.com/talks/john_doe_power_of_education")
    /\ In (Warning "https://www.ted.com/talks/john_doe_power_of_education"
                   (ErrFetchTalkPage "timeout")) (stdout st').
Proof.
  pose proof (parseTalksList_keeps_failed_entry
                Samples.listing_site New Samples.listing_url 2 initial
                200 Samples.listing_page [] [Samples.entry_jane] Samples.entry_john
                [] (mkState [ClientGet Samples.listing_url] [])
                (mkState [ClientGet "https://www.ted.com/talks/john_doe_power_of_education";
                          ClientGet Samples.listing_url] [])
                (entryTalk Samples.entry_john) (ErrFetchTalkPage "timeout")
                eq_refl eq_refl ltac:(reflexivity) eq_refl eq_refl) as [_ H].
  eexists _, _. apply H. vm_compute. reflexivity.
Defined.

(** The batch of the witness in full: the first talk is the stub, the
    second carries the media of its page. *)
Example listing_with_one_failure :
  exists jane st',
    parseTalksList Samples.listing_site New Samples.listing_url 2 initial
    = (Return (Ok [newTalk "The power of education" "John Doe"
                           "https://www.ted.com/talks/john_doe_power_of_education";
                   jane]), st')
    /\ Title jane = "Learning in the digital age"
    /\ VideoFormats jane = [Spec.toFormat Samples.h1080; Spec.toFormat Samples.h720].
Proof. eexists _, _. repeat split; vm_compute; reflexivity. Qed.

(** C9, at an input where the code departs from it: the first talk page
    of a listing times out, so that its stub is kept and a warning
    printed, and the second talk page carries a script whose closing
    brace stands before its opening one. The enrichment of the second
    entry panics and the whole search with it: no talk is returned, the
    stub of the first entry included. *)
Theorem parseTalksList_aborted_by_bad_page :
  parseTalksList Samples.broken_listing_site New Samples.listing_url 2 initial
  = (Panicked,
     mkState [ClientGet "https://www.ted.com/talks/jane_smith_learning_digital";
              ClientGet "https://www.ted.com/talks/john_doe_power_of_education";
              ClientGet Samples.listing_url]
             [Warning "https://www.ted.com/talks/john_doe_power_of_education"
                      (ErrFetchTalkPage "timeout")])
  /\ parseTalkDetails Samples.broken_listing_site New
       (entryTalk Samples.entry_john) (mkState [ClientGet Samples.listing_url] [])
     = (Return (entryTalk Samples.entry_john, Some (ErrFetchTalkPage "timeout")),
        mkState [ClientGet "https://www.ted.com/talks/john_doe_power_of_education";
                 ClientGet Samples.listing_url] []).
Proof. split; vm_compute; reflexivity. Qed.

(* ===================================================================== *)
(** * One-byte needles                                                   *)
(* ===================================================================== *)

Section ByteFacts.

Variable c : ascii.

Let needle : string := String c EmptyString.

Lemma prefix_byte (a : ascii) (s : string) :
  String.prefix needle (String a s) = Ascii.eqb c a.
Proof.
  unfold needle. cbn [String.prefix].
  destruct (Ascii.ascii_dec c a) as [<-|Hne].
  - rewrite Ascii.eqb_refl. destruct s; reflexivity.
  - symmetry. apply Ascii.eqb_neq. exact Hne.
Qed.

Lemma index_nat_byte_cons (a : ascii) (s : string) :
  index_nat (String a s) needle
  = if Ascii.eqb c a then Some O else option_map S (index_nat s needle).
Proof. cbn [index_nat]. rewrite prefix_byte. reflexivity. Qed.

Lemma index_nat_byte_none (s : string) :
  index_nat s needle = None <-> Spec.anyByte (Ascii.eqb c) s = false.
Proof.
  induction s as [|a s IH].
  - cbn. tauto.
  - rewrite index_nat_byte_cons. cbn [Spec.anyByte].
    destruct (Ascii.eqb c a); cbn [orb]; [split; discriminate|].
    destruct (index_nat s needle); cbn [option_map].
    + split; [discriminate|]. intros H. apply IH in H. discriminate.
    + split; [intros _; apply IH; reflexivity|reflexivity].
Qed.

(** [strings.Contains(s, c)] for a one-byte [c] looks for that byte. *)
Lemma Contains_byte (s : string) : Contains s needle = Spec.anyByte (Ascii.eqb c) s.
Proof.
  unfold Contains, Index.
  destruct (index_nat s needle) as [i|] eqn:Hi.
  - destruct (Spec.anyByte (Ascii.eqb c) s) eqn:Hs.
    + apply Z.leb_le. lia.
    + apply index_nat_byte_none in Hs. congruence.
  - apply index_nat_byte_none in Hi. rewrite Hi. reflexivity.
Qed.

(** [strings.ReplaceAll(s, c, d)] for one-byte [c] and [d] swaps the
    byte and touches nothing else. *)
Lemma replace_loop_byte (d : ascii) (s : string) :
  forall fuel, (String.length s <= fuel)%nat ->
               replace_loop fuel s needle (String d EmptyString)
               = map_str (Spec2.swapByte c d) s.
Proof.
  induction s as [|a s IH]; intros fuel Hlen.
  - destruct fuel; reflexivity.
  - destruct fuel as [|k]; [cbn in Hlen; lia|].
    cbn [String.length] in Hlen. cbn [replace_loop map_str].
    rewrite index_nat_byte_cons. unfold Spec2.swapByte at 1.
    rewrite (Ascii.eqb_sym a). destruct (Ascii.eqb c a) eqn:Ha.
    + cbn. rewrite IH by lia. reflexivity.
    + pose proof (IH (S k) ltac:(lia)) as IHk. cbn [replace_loop] in IHk.
      destruct (index_nat s needle) as [m|]; cbn [option_map].
      * cbn. cbn in IHk. rewrite <- IHk. reflexivity.
      * rewrite <- IHk. reflexivity.
Qed.

Lemma ReplaceAll_byte (d : ascii) (s : string) :
  ReplaceAll s needle (String d EmptyString) = map_str (Spec2.swapByte c d) s.
Proof. apply replace_loop_byte. lia. Qed.

End ByteFacts.

Lemma map_str_compose (f g : ascii -> ascii) (s : string) :
  map_str f (map_str g s) = map_str (fun x => f (g x)) s.
Proof. induction s as [|a s IH]; cbn; [reflexivity|rewrite IH; reflexivity]. Qed.

Lemma map_str_ext (f g : ascii -> ascii) (s : string) :
  (forall x, f x = g x) -> map_str f s = map_str g s.
Proof. intros H. induction s as [|a s IH]; cbn; [reflexivity|rewrite H, IH; reflexivity]. Qed.

Lemma map_str_length (f : ascii -> ascii) (s : string) :
  String.length (map_str f s) = String.length s.
Proof. induction s as [|a s IH]; cbn; [reflexivity|rewrite IH; reflexivity]. Qed.

Lemma anyByte_map_str (P : ascii -> bool) (f : ascii -> ascii) (s : string) :
  (forall x, P (f x) = false) -> Spec.anyByte P (map_str f s) = false.
Proof. intros H. induction s as [|a s IH]; cbn; [reflexivity|rewrite H, IH; reflexivity]. Qed.

(* ===================================================================== *)
(** * [sanitizeFilename]                                                 *)
(* ===================================================================== *)

Lemma nine_swaps (x : ascii) :
  Spec2.swapByte "|" "_"
    (Spec2.swapByte ">" "_"
       (Spec2.swapByte "<" "_"
          (Spec2.swapByte (ascii_of_nat 34) "_"
             (Spec2.swapByte "?" "_"
                (Spec2.swapByte "*" "_"
                   (Spec2.swapByte ":" "_"
                      (Spec2.swapByte "\" "_"
                         (Spec2.swapByte "/" "_" x))))))))
  = Spec2.underscoreInvalid x.
Proof. destruct x as [[] [] [] [] [] [] [] []]; reflexivity. Qed.

Lemma sanitizeFilename_map (s : string) :
  Downloader.sanitizeFilename s = map_str Spec2.underscoreInvalid s.
Proof.
  unfold Downloader.sanitizeFilename, Downloader.invalid, Downloader.quote.
  cbn [fold_left]. rewrite !ReplaceAll_byte, !map_str_compose.
  apply map_str_ext. exact nine_swaps.
Qed.

(** X1. [sanitizeFilename] turns each of its nine bytes (slash,
    backslash, colon, asterisk, question mark, double quote, the two
    angle brackets and the bar) into an underscore and leaves every other
    byte where it was; the length of the name does not change. *)
Theorem sanitizeFilename_bytewise (s : string) :
  Downloader.sanitizeFilename s = map_str Spec2.underscoreInvalid s
  /\ String.length (Downloader.sanitizeFilename s) = String.length s.
Proof.
  split; [apply sanitizeFilename_map|].
  rewrite sanitizeFilename_map. apply map_str_length.
Qed.

Lemma underscoreInvalid_valid (x : ascii) :
  Spec2.isInvalid (Spec2.underscoreInvalid x) = false.
Proof. destruct x as [[] [] [] [] [] [] [] []]; reflexivity. Qed.

Lemma underscoreInvalid_idem (x : ascii) :
  Spec2.underscoreInvalid (Spec2.underscoreInvalid x) = Spec2.underscoreInvalid x.
Proof. destruct x as [[] [] [] [] [] [] [] []]; reflexivity. Qed.

(** X2. The name [sanitizeFilename] returns holds none of the nine
    bytes, in particular no path separator, and sanitizing it again
    changes nothing. *)
Theorem sanitizeFilename_clean (s : string) :
  Spec.anyByte Spec2.isInvalid (Downloader.sanitizeFilename s) = false
  /\ Contains (Downloader.sanitizeFilename s) "/" = false
  /\ Downloader.sanitizeFilename (Downloader.sanitizeFilename s)
     = Downloader.sanitizeFilename s.
Proof.
  pose proof (sanitizeFilename_map s) as H.
  pose proof (sanitizeFilename_map (Downloader.sanitizeFilename s)) as H2.
  split; [|split].
  - rewrite H. apply anyByte_map_str. exact underscoreInvalid_valid.
  - rewrite Contains_byte, H. apply anyByte_map_str.
    intros x. destruct x as [[] [] [] [] [] [] [] []]; reflexivity.
  - rewrite H2, H, map_str_compose. apply map_str_ext. exact underscoreInvalid_idem.
Qed.

(** The name of the downloader test. *)
Example sanitizeFilename_test :
  Downloader.sanitizeFilename "test/talk:with*invalid?chars"
  = "test_talk_with_invalid_chars".
Proof. reflexivity. Qed.

(* ===================================================================== *)
(** * What the markup extractors keep                                    *)
(* ===================================================================== *)

Lemma findLast_snoc {A : Type} (P : A -> bool) (l : list A) (a : A) :
  Spec.findLast P (l ++ [a]) = if P a then Some a else Spec.findLast P l.
Proof. unfold Spec.findLast. rewrite rev_app_distr. reflexivity. Qed.

Section Agreement.

Variable E : Env.

(** [VideoURLs] holds, for every quality, the URL of the last format of
    that quality, and nothing else. *)
Let agree (t : Talk) : Prop :=
  forall quality,
    Spec.mapget (VideoURLs t) quality
    = vfURL <$> Spec2.lastFormat quality (VideoFormats t).

(** What a step may change: video URLs and formats, the latter only by
    appending. *)
Let extends (t t' : Talk) : Prop :=
  Spec2.sameStub t t' /\ SubtitleURLs t' = SubtitleURLs t
  /\ exists more, VideoFormats t' = (VideoFormats t ++ more)%list.

Lemma extends_refl (t : Talk) : extends t t.
Proof.
  repeat split. exists []. rewrite app_nil_r. reflexivity.
Qed.

Lemma extends_trans (a b c : Talk) : extends a b -> extends b c -> extends a c.
Proof.
  intros ((H1 & H2 & H3) & H4 & m1 & H5) ((G1 & G2 & G3) & G4 & m2 & G5).
  repeat split; try congruence.
  exists (m1 ++ m2)%list. rewrite G5, H5, app_assoc. reflexivity.
Qed.

Lemma addH264_keeps (t : Talk) (h : H264) :
  agree t -> agree (addH264 t h) /\ extends t (addH264 t h).
Proof.
  intros Hag. split.
  - intros quality. unfold addH264; cbn.
    rewrite rev_app_distr. cbn [rev app find Quality]. unfold mapset.
    destruct (String.eqb_spec (hQuality h) quality) as [->|Hne].
    + rewrite lookup_insert_eq. reflexivity.
    + rewrite lookup_insert_ne by exact Hne.
      specialize (Hag quality). unfold Spec2.lastFormat, Spec.findLast in Hag.
      rewrite <- Hag. destruct (VideoURLs t); reflexivity.
  - repeat split. eexists. reflexivity.
Qed.

Lemma addH264_fold_keeps (hs : list H264) (t : Talk) :
  agree t -> agree (fold_left addH264 hs t) /\ extends t (fold_left addH264 hs t).
Proof.
  revert t. induction hs as [|h hs IH]; intros t Hag; cbn [fold_left].
  - split; [exact Hag|apply extends_refl].
  - destruct (addH264_keeps t h Hag) as [Hag1 Hex1].
    destruct (IH _ Hag1) as [Hag2 Hex2].
    split; [exact Hag2|eapply extends_trans; eassumption].
Qed.

Lemma scriptStep_keeps (t t' : Talk) (text : string) :
  scriptStep E t text = Return t' -> agree t -> agree t' /\ extends t t'.
Proof.
  unfold scriptStep. intros Hstep Hag.
  assert (Hsame : t' = t -> agree t' /\ extends t t').
  { intros ->. split; [exact Hag|apply extends_refl]. }
  destruct (Contains text "talkPage.init"); [|injection Hstep as <-; auto].
  destruct (negb _ && negb _); [|injection Hstep as <-; auto].
  destruct (slice text _ _) as [json|]; [|discriminate].
  destruct (unmarshalPage E json) as [data|]; [|injection Hstep as <-; auto].
  destruct (PlayerData_Talks data) as [|t0 ?]; [injection Hstep as <-; auto|].
  destruct (PlayerTalks t0) as [|pt0 ?]; [injection Hstep as <-; auto|].
  injection Hstep as <-. apply addH264_fold_keeps. exact Hag.
Qed.

Lemma eachScript_keeps (texts : list string) (t t' : Talk) :
  eachScript E texts t = Return t' -> agree t -> agree t' /\ extends t t'.
Proof.
  revert t. induction texts as [|x rest IH]; intros t Hrun Hag; cbn [eachScript] in Hrun.
  - injection Hrun as <-. split; [exact Hag|apply extends_refl].
  - destruct (scriptStep E t x) as [t1|] eqn:Hx; [|discriminate].
    destruct (scriptStep_keeps _ _ _ Hx Hag) as [Hag1 Hex1].
    destruct (IH _ Hrun Hag1) as [Hag2 Hex2].
    split; [exact Hag2|eapply extends_trans; eassumption].
Qed.

(** The extraction of video URLs, when it returns, has touched neither
    title, speaker, URL nor subtitles, has only appended formats, and
    keeps [VideoURLs] in step with [VideoFormats]. *)
Lemma extractVideoURLs_keeps (doc : Document) (t t' : Talk) :
  extractVideoURLs E doc t = Return t' ->
  (forall quality,
      Spec.mapget (VideoURLs t) quality
      = vfURL <$> Spec2.lastFormat quality (VideoFormats t)) ->
  (forall quality,
      Spec.mapget (VideoURLs t') quality
      = vfURL <$> Spec2.lastFormat quality (VideoFormats t'))
  /\ Spec2.sameStub t t' /\ SubtitleURLs t' = SubtitleURLs t
  /\ exists more, VideoFormats t' = (VideoFormats t ++ more)%list.
Proof. apply eachScript_keeps. Qed.

End Agreement.

(** X3. A talk returned by the markup path carries the URL it was asked
    for, and its two views of the videos agree: [VideoURLs[quality]] is
    the URL of the last entry of [VideoFormats] with that quality, and a
    quality without a format has no URL. *)
Theorem parseWithHTML_formats_agree (E : Env) (p : Parser) (url : string)
    (st st' : State) (talk : Talk) :
  parseWithHTML E p url st = (Return (Ok talk), st') ->
  URL talk = url
  /\ forall quality,
       Spec.mapget (VideoURLs talk) quality
       = vfURL <$> Spec2.lastFormat quality (VideoFormats talk).
Proof.
  unfold parseWithHTML, bind, clientGet, ret, lift; cbn.
  destruct (servePage E _) as [c|status [| |doc]]; try discriminate.
  match goal with |- context [extractVideoURLs E doc ?t0] =>
    destruct (extractVideoURLs E doc t0) as [t|] eqn:Hx; [|discriminate];
    destruct (extractVideoURLs_keeps E doc t0 t Hx) as (Hag & (_ & _ & Hurl) & _ & _);
      [intros quality; reflexivity|] end.
  cbn. destruct (_ && _); [discriminate|]. intros [= <- _]. cbn.
  split; [symmetry; exact Hurl|exact Hag].
Qed.

Lemma parseWithHTML_formats_agree_witness :
  exists talk st',
    parseWithHTML (Samples.site Samples.api_errors (Response 200 (Decoded Samples.talk_page)))
                  New Samples.test_url initial = (Return (Ok talk), st')
    /\ URL talk = Samples.test_url
    /\ forall quality,
         Spec.mapget (VideoURLs talk) quality
         = vfURL <$> Spec2.lastFormat quality (VideoFormats talk).
Proof.
  eexists _, _. split; [vm_compute; reflexivity|].
  eapply (parseWithHTML_formats_agree
            (Samples.site Samples.api_errors (Response 200 (Decoded Samples.talk_page)))
            New Samples.test_url initial).
  vm_compute. reflexivity.
Defined.

(* ===================================================================== *)
(** * Subtitle anchors                                                   *)
(* ===================================================================== *)

Lemma absolute_http (url : string) : HasPrefix (Spec2.absolute url) "http" = true.
Proof.
  unfold Spec2.absolute. destruct (HasPrefix url "http") eqn:H; [exact H|reflexivity].
Qed.

Lemma fold_left_ext {A B : Type} (f g : A -> B -> A) (l : list B) (a : A) :
  (forall x y, f x y = g x y) -> fold_left f l a = fold_left g l a.
Proof.
  intros H. revert a. induction l as [|b l IH]; intros a; cbn; [reflexivity|].
  rewrite H. apply IH.
Qed.

(** The anchor loop, key by key. *)
Lemma anchor_fold_lookup (anchors : list Anchor) (lang : string) :
  fold_left anchorStep anchors ∅ !! lang
  = match Spec2.lastAnchorFor lang anchors with
    | Some a => Spec2.absolute <$> href a
    | None => None
    end.
Proof.
  unfold Spec2.lastAnchorFor.
  rewrite (fold_left_ext anchorStep
             (fun m a =>
                if match href a with Some _ => true | None => false end
                   && negb (String.eqb (dataLanguage a) "")
                then mapset (dataLanguage a)
                            (Spec2.absolute (match href a with Some u => u | None => "" end)) m
                else m)).
  - etransitivity.
    + exact (guarded_fold_lookup
               (fun a => match href a with Some _ => true | None => false end
                         && negb (String.eqb (dataLanguage a) ""))
               dataLanguage
               (fun a => Spec2.absolute (match href a with Some u => u | None => "" end))
               anchors ∅ lang).
    + destruct (Spec.findLast _ anchors) as [a|] eqn:Hf; [|reflexivity].
      apply findLast_Some in Hf as [_ HP].
      destruct (href a); [reflexivity|discriminate].
  - intros m a. unfold anchorStep, Spec2.absolute.
    destruct (href a); [|reflexivity].
    destruct (negb (String.eqb (dataLanguage a) "")); reflexivity.
Qed.

(** X4. [extractSubtitleURLs] starts from a fresh map, whatever the talk
    held before: afterwards [SubtitleURLs[lang]] is the [href], made
    absolute, of the last anchor that has an [href] and the non-empty
    language [lang]; a language without such an anchor, and the empty
    language, have no entry. Nothing else of the talk changes. *)
Theorem extractSubtitleURLs_lookup (doc : Document) (talk : Talk) (lang : string) :
  Spec.mapget (SubtitleURLs (extractSubtitleURLs doc talk)) lang
  = match Spec2.lastAnchorFor lang (langAnchors doc) with
    | Some a => Spec2.absolute <$> href a
    | None => None
    end
  /\ Spec.mapget (SubtitleURLs (extractSubtitleURLs doc talk)) "" = None
  /\ SubtitleURLs (extractSubtitleURLs doc talk) <> None
  /\ Spec2.sameStub talk (extractSubtitleURLs doc talk)
  /\ VideoURLs (extractSubtitleURLs doc talk) = VideoURLs talk
  /\ VideoFormats (extractSubtitleURLs doc talk) = VideoFormats talk.
Proof.
  cbn. split; [apply anchor_fold_lookup|]. split.
  - rewrite anchor_fold_lookup.
    destruct (Spec2.lastAnchorFor "" (langAnchors doc)) as [a|] eqn:Hf; [|reflexivity].
    apply findLast_Some in Hf as [_ HP].
    apply andb_true_iff in HP as [HP Heq]. apply andb_true_iff in HP as [_ Hne].
    rewrite Heq in Hne. discriminate.
  - repeat split. discriminate.
Qed.

(** X5. Every subtitle URL that [extractSubtitleURLs] stores begins with
    [http]: an [href] that does not is prefixed with the base URL. *)
Theorem extractSubtitleURLs_absolute (doc : Document) (talk : Talk) (lang v : string) :
  Spec.mapget (SubtitleURLs (extractSubtitleURLs doc talk)) lang = Some v ->
  HasPrefix v "http" = true.
Proof.
  cbn. rewrite anchor_fold_lookup.
  destruct (Spec2.lastAnchorFor lang (langAnchors doc)) as [a|]; [|discriminate].
  destruct (href a) as [u|]; [|discriminate].
  intros [= <-]. apply absolute_http.
Qed.

Lemma extractSubtitleURLs_absolute_witness :
  HasPrefix "https://www.ted.com/talks/subtitles/zh" "http" = true.
Proof.
  apply (extractSubtitleURLs_absolute Samples.talk_page (newTalk "" "" Samples.test_url) "zh").
  vm_compute. reflexivity.
Defined.

(* ===================================================================== *)
(** * The listing search, entry by entry                                 *)
(* ===================================================================== *)

Lemma entryTalk_http (s : ListingEntry) : HasPrefix (URL (entryTalk s)) "http" = true.
Proof.
  unfold entryTalk; cbn.
  destruct (HasPrefix (AttrHref _).1 "http") eqn:H; [exact H|reflexivity].
Qed.

Section ListingOrder.

Variables (E : Env) (p : Parser).

Lemma sameStub_trans (a b c : Talk) :
  Spec2.sameStub a b -> Spec2.sameStub b c -> Spec2.sameStub a c.
Proof. intros (H1 & H2 & H3) (G1 & G2 & G3). repeat split; congruence. Qed.

Lemma scriptStep_stub (t t' : Talk) (text : string) :
  scriptStep E t text = Return t' -> Spec2.sameStub t t'.
Proof.
  unfold scriptStep. intros Hstep.
  assert (Hsame : t' = t -> Spec2.sameStub t t') by (intros ->; repeat split).
  destruct (Contains text "talkPage.init"); [|injection Hstep as <-; auto].
  destruct (negb _ && negb _); [|injection Hstep as <-; auto].
  destruct (slice text _ _) as [json|]; [|discriminate].
  destruct (unmarshalPage E json) as [data|]; [|injection Hstep as <-; auto].
  destruct (PlayerData_Talks data) as [|t0 ?]; [injection Hstep as <-; auto|].
  destruct (PlayerTalks t0) as [|pt0 ?]; [injection Hstep as <-; auto|].
  injection Hstep as <-.
  destruct (addH264_fold_other (Resources_H264 pt0) t) as (H1 & H2 & H3 & _).
  repeat split; symmetry; assumption.
Qed.

Lemma eachScript_stub (texts : list string) (t t' : Talk) :
  eachScript E texts t = Return t' -> Spec2.sameStub t t'.
Proof.
  revert t. induction texts as [|x rest IH]; intros t Hrun; cbn [eachScript] in Hrun.
  - injection Hrun as <-. repeat split.
  - destruct (scriptStep E t x) as [t1|] eqn:Hx; [|discriminate].
    eapply sameStub_trans; [eapply scriptStep_stub; exact Hx|apply IH; exact Hrun].
Qed.

(** The detail fetch keeps title, speaker and URL, and sends one request. *)
Lemma parseTalkDetails_stub (talk t : Talk) (oe : option error) (st st1 : State) :
  parseTalkDetails E p talk st = (Return (t, oe), st1) ->
  Spec2.sameStub talk t
  /\ st1 = mkState (ClientGet (URL talk) :: requests st) (stdout st).
Proof.
  unfold parseTalkDetails, bind, clientGet, ret, lift; cbn.
  destruct (servePage E _) as [c|status [| |doc]];
    try (intros [= <- _ <-]; repeat split).
  destruct (extractVideoURLs E doc talk) as [t1|] eqn:Hx; [|discriminate].
  intros [= <- _ <-]. split; [|reflexivity].
  apply eachScript_stub in Hx. exact Hx.
Qed.

(** The loop handles the entries below the limit, in order: one talk and
    one request each. *)
Lemma eachEntry_stubs (limit : Z) (es : list ListingEntry) :
  forall (i : Z) (talks talks' : list Talk) (st st' : State),
    eachEntry E p limit i es talks st = (Return talks', st') ->
    exists more,
      talks' = (talks ++ more)%list
      /\ Forall2 (fun s t => Spec2.sameStub (entryTalk s) t)
                 (take (Z.to_nat (limit - i)) es) more
      /\ requests st'
         = (rev (map (fun s => ClientGet (URL (entryTalk s)))
                     (take (Z.to_nat (limit - i)) es)) ++ requests st)%list.
Proof.
  induction es as [|s rest IH]; intros i talks talks' st st' Hrun.
  - cbn in Hrun. injection Hrun as <- <-. exists [].
    rewrite app_nil_r, take_nil. repeat split. constructor.
  - cbn [eachEntry] in Hrun. unfold bind in Hrun.
    destruct (entryStep E p limit i s talks st) as [[t1|] st1] eqn:Hs; [|discriminate].
    apply IH in Hrun as (more & -> & Hall & Hreq).
    unfold entryStep in Hs. destruct (Z.leb_spec limit i) as [Hge|Hlt].
    + injection Hs as <- <-.
      replace (Z.to_nat (limit - i)) with O by lia.
      replace (Z.to_nat (limit - (i + 1))) with O in Hall, Hreq by lia.
      rewrite take_0 in *. inversion Hall; subst.
      exists []. repeat split; [constructor|exact Hreq].
    + unfold bind in Hs.
      destruct (parseTalkDetails E p (entryTalk s) st) as [[[t oe]|] st0] eqn:Hd;
        [|discriminate].
      apply parseTalkDetails_stub in Hd as [Hstub ->].
      assert (Hst1 : t1 = (talks ++ [t])%list /\ requests st1
                     = ClientGet (URL (entryTalk s)) :: requests st).
      { destruct oe; cbn in Hs; injection Hs as <- <-; split; reflexivity. }
      destruct Hst1 as [-> Hr1].
      replace (Z.to_nat (limit - i)) with (S (Z.to_nat (limit - (i + 1)))) by lia.
      cbn [take map rev]. exists (t :: more). rewrite <- app_assoc. split; [reflexivity|].
      split; [constructor; assumption|].
      rewrite Hreq, Hr1, <- app_assoc. reflexivity.
Qed.

End ListingOrder.

(** X6. When the listing page has been served and [parseTalksList]
    returns, it returns no error: the talks it returns are those of the
    first [limit] blocks of the page, one per block and in document order,
    each with the title, speaker and URL of its block, its URL beginning
    with [http]; a limit of zero or less gives no talk. *)
Theorem parseTalksList_in_order (E : Env) (p : Parser) (url : string) (limit : Z)
    (st st' : State) (status : Z) (doc : Document) (r : result (list Talk)) :
  servePage E (ClientGet url :: requests st) = Response status (Decoded doc) ->
  parseTalksList E p url limit st = (Return r, st') ->
  exists talks,
    r = Ok talks
    /\ Forall2 (fun s t => Spec2.sameStub (entryTalk s) t /\ HasPrefix (URL t) "http" = true)
               (take (Z.to_nat limit) (listing doc)) talks
    /\ length talks = Nat.min (Z.to_nat limit) (length (listing doc)).
Proof.
  intros Hpage. unfold parseTalksList, bind, clientGet, ret; cbn. rewrite Hpage.
  destruct (eachEntry E p limit 0 (listing doc) [] _) as [[talks|] st1] eqn:Hrun;
    [|discriminate].
  intros [= <- _]. apply eachEntry_stubs in Hrun as (more & Hm & Hall & _).
  cbn in Hm. subst more. rewrite Z.sub_0_r in Hall.
  exists talks. split; [reflexivity|]. split.
  - eapply Forall2_impl; [exact Hall|].
    intros s t Hs. split; [exact Hs|].
    destruct Hs as (_ & _ & <-). apply entryTalk_http.
  - apply Forall2_length in Hall. rewrite <- Hall. apply length_take.
Qed.

Lemma parseTalksList_in_order_witness :
  exists talks,
    Ok [newTalk "The power of education" "John Doe"
                "https://www.ted.com/talks/john_doe_power_of_education"]
    = Ok talks
    /\ Forall2 (fun s t => Spec2.sameStub (entryTalk s) t /\ HasPrefix (URL t) "http" = true)
               (take (Z.to_nat 1) (listing Samples.listing_page)) talks
    /\ length talks = Nat.min (Z.to_nat 1) (length (listing Samples.listing_page)).
Proof.
  apply (parseTalksList_in_order Samples.listing_site New Samples.listing_url 1 initial
           (mkState [ClientGet "https://www.ted.com/talks/john_doe_power_of_education";
                     ClientGet Samples.listing_url]
                    [Warning "https://www.ted.com/talks/john_doe_power_of_education"
                             (ErrFetchTalkPage "timeout")])
           200 Samples.listing_page).
  - reflexivity.
  - vm_compute. reflexivity.
Defined.

(** X7. When the listing page has been served and [parseTalksList]
    returns, the requests it has sent are the one for the listing and
    then one for the URL of each of the first [limit] blocks, in document
    order: a block beyond the limit is never fetched. *)
Theorem parseTalksList_fetches (E : Env) (p : Parser) (url : string) (limit : Z)
    (st st' : State) (status : Z) (doc : Document) (r : result (list Talk)) :
  servePage E (ClientGet url :: requests st) = Response status (Decoded doc) ->
  parseTalksList E p url limit st = (Return r, st') ->
  requests st'
  = (rev (map (fun s => ClientGet (URL (entryTalk s)))
              (take (Z.to_nat limit) (listing doc)))
       ++ ClientGet url :: requests st)%list.
Proof.
  intros Hpage. unfold parseTalksList, bind, clientGet, ret; cbn. rewrite Hpage.
  destruct (eachEntry E p limit 0 (listing doc) [] _) as [[talks|] st1] eqn:Hrun;
    [|discriminate].
  intros [= _ <-]. apply eachEntry_stubs in Hrun as (more & _ & _ & Hreq).
  rewrite Z.sub_0_r in Hreq. exact Hreq.
Qed.

Lemma parseTalksList_fetches_witness :
  [ClientGet "https://www.ted.com/talks/john_doe_power_of_education";
   ClientGet Samples.listing_url]
  = (rev (map (fun s => ClientGet (URL (entryTalk s)))
              (take (Z.to_nat 1) (listing Samples.listing_page)))
       ++ ClientGet Samples.listing_url :: [])%list.
Proof.
  apply (parseTalksList_fetches Samples.listing_site New Samples.listing_url 1 initial
           (mkState [ClientGet "https://www.ted.com/talks/john_doe_power_of_education";
                     ClientGet Samples.listing_url]
                    [Warning "https://www.ted.com/talks/john_doe_power_of_education"
                             (ErrFetchTalkPage "timeout")])
           200 Samples.listing_page
           (Ok [newTalk "The power of education" "John Doe"
                        "https://www.ted.com/talks/john_doe_power_of_education"])).
  - reflexivity.
  - vm_compute. reflexivity.
Defined.

(* ===================================================================== *)
(** * What the structured-API path hands back                            *)
(* ===================================================================== *)

Lemma lower_byte_idem (c : ascii) : lower_byte (lower_byte c) = lower_byte c.
Proof. destruct c as [[] [] [] [] [] [] [] []]; reflexivity. Qed.

Lemma ToLower_idem (s : string) : ToLower (ToLower s) = ToLower s.
Proof.
  unfold ToLower. rewrite map_str_compose. apply map_str_ext. exact lower_byte_idem.
Qed.

(** Lower-casing leaves no ASCII capital letter behind; [strings.ToLower]
    has this property on every string, ASCII or not. *)
Lemma lower_byte_not_capital (c : ascii) : Spec2.isCapital (lower_byte c) = false.
Proof. destruct c as [[] [] [] [] [] [] [] []]; reflexivity. Qed.

(** X8. On a talk returned by the structured-API path, no key of
    [SubtitleURLs] holds an ASCII capital letter ([A] to [Z]) and every
    URL is non-empty. A language code written with such a letter, like
    the [zh-CN] of the command's help text, is therefore never found in
    it. *)
Theorem parseWithGraphQL_subtitle_keys (E : Env) (p : Parser) (slug url : string)
    (st st' : State) (talk : Talk) :
  parseWithGraphQL E p slug url st = (Return (Ok talk), st') ->
  (forall code v,
      Spec.mapget (SubtitleURLs talk) code = Some v ->
      Spec.anyByte Spec2.isCapital code = false /\ v <> "")
  /\ Spec.mapget (SubtitleURLs talk) "zh-CN" = None.
Proof.
  intros Hok. apply parseWithGraphQL_Ok in Hok
    as (status & res & node & rest & status' & doc & _ & _ & _ & _ & -> & _).
  cbn [Spec.mapget SubtitleURLs].
  assert (Hkeys : forall code v,
             fold_left subtitleStep (SubtitledDownloads node) ∅ !! code = Some v ->
             Spec.anyByte Spec2.isCapital code = false /\ v <> "").
  { intros code v. rewrite subtitle_fold_lookup. unfold Spec.lastSubtitleFor.
    destruct (Spec.findLast _ _) as [d|] eqn:Hd; [|discriminate].
    intros [= <-]. apply findLast_Some in Hd as [_ HP].
    apply andb_true_iff in HP as [H1 H2].
    apply String.eqb_eq in H2. apply negb_true_iff, String.eqb_neq in H1.
    split; [|exact H1]. rewrite <- H2. unfold ToLower.
    apply anyByte_map_str. exact lower_byte_not_capital. }
  split; [exact Hkeys|].
  destruct (fold_left subtitleStep (SubtitledDownloads node) ∅ !! "zh-CN") as [v|] eqn:Hv;
    [|reflexivity].
  apply Hkeys in Hv as [Hcap _]. vm_compute in Hcap. discriminate.
Qed.

Lemma parseWithGraphQL_subtitle_keys_witness :
  Spec.anyByte Spec2.isCapital "zh-cn" = false
  /\ "https://download.ted.com/talks/test-low-zh-cn.mp4" <> "".
Proof.
  refine (proj1 (parseWithGraphQL_subtitle_keys
                   (Samples.site (Samples.api_node Samples.subs_en_zh)
                                 (Response 200 (Decoded Samples.bare_page)))
                   New "test_slug" Samples.test_url initial _ _ _) "zh-cn" _ _);
    vm_compute; reflexivity.
Defined.

Lemma englishLoop_lookup (subs : list SubtitledDownload) (k : string) :
  englishLoop subs ∅ !! k
  = match Spec.firstEnglish subs with
    | Some sub => if String.eqb k "1080p" then Some (High sub)
                  else if String.eqb k "720p" then Some (Low sub) else None
    | None => None
    end.
Proof.
  unfold Spec.firstEnglish.
  induction subs as [|d subs IH]; cbn [find englishLoop]; [reflexivity|].
  destruct (String.eqb (InternalLanguageCode d) "en"); [|exact IH].
  unfold mapset. destruct (String.eqb_spec k "1080p") as [H1|H1].
  - rewrite H1. apply lookup_insert_eq.
  - rewrite lookup_insert_ne by congruence.
    destruct (String.eqb_spec k "720p") as [H2|H2].
    + rewrite H2. apply lookup_insert_eq.
    + rewrite lookup_insert_ne by congruence. reflexivity.
Qed.

(** X9. A talk returned by the structured-API path never has video
    formats, and its [VideoURLs] has the two keys [720p] and [1080p] when
    the first node has an entry for the language [en], and no key at all
    when it has none, whatever other languages it offers. *)
Theorem parseWithGraphQL_video_keys (E : Env) (p : Parser) (slug url : string)
    (st st' : State) (status : Z) (res : GraphQLResult) (node : Node) (rest : list Node)
    (talk : Talk) :
  serveGraphQL E (GraphQLPost (GraphqlURL p) slug url :: requests st)
    = Response status (Decoded res) ->
  Nodes res = node :: rest ->
  parseWithGraphQL E p slug url st = (Return (Ok talk), st') ->
  VideoFormats talk = []
  /\ forall quality,
       Spec.mapget (VideoURLs talk) quality
       = match Spec.firstEnglish (SubtitledDownloads node) with
         | Some sub => if String.eqb quality "1080p" then Some (High sub)
                       else if String.eqb quality "720p" then Some (Low sub) else None
         | None => None
         end.
Proof.
  intros Hg Hn Hok. apply parseWithGraphQL_Ok in Hok
    as (status0 & res0 & node0 & rest0 & status' & doc & Hg0 & _ & Hn0 & _ & -> & _).
  rewrite Hg in Hg0. injection Hg0 as _ <-. rewrite Hn in Hn0. injection Hn0 as <- _.
  split; [reflexivity|]. intros quality. cbn. apply englishLoop_lookup.
Qed.

Lemma parseWithGraphQL_video_keys_witness :
  exists talk,
    VideoFormats talk = []
    /\ forall quality,
         Spec.mapget (VideoURLs talk) quality
         = match Spec.firstEnglish Samples.subs_en_zh with
           | Some sub => if String.eqb quality "1080p" then Some (High sub)
                         else if String.eqb quality "720p" then Some (Low sub) else None
           | None => None
           end.
Proof.
  eexists.
  eapply (parseWithGraphQL_video_keys
            (Samples.site (Samples.api_node Samples.subs_en_zh)
                          (Response 200 (Decoded Samples.bare_page)))
            New "test_slug" Samples.test_url initial _ 200
            (mkGraphQLResult [mkNode Samples.no_native Samples.subs_en_zh] [])
            (mkNode Samples.no_native Samples.subs_en_zh) []).
  - reflexivity.
  - reflexivity.
  - vm_compute. reflexivity.
Defined.

(* ===================================================================== *)
(** * Slugs                                                              *)
(* ===================================================================== *)

Section Pieces.

Variable P : ascii -> bool.

Lemma anyByte_substring (s : string) :
  Spec.anyByte P s = false ->
  forall a n, Spec.anyByte P (String.substring a n s) = false.
Proof.
  induction s as [|x s IH]; intros Hs a n.
  - destruct a, n; reflexivity.
  - cbn [Spec.anyByte] in Hs. apply orb_false_iff in Hs as [Hx Hs].
    destruct a as [|a]; destruct n as [|n]; cbn [String.substring Spec.anyByte];
      try reflexivity.
    + rewrite Hx. apply IH. exact Hs.
    + apply IH. exact Hs.
    + apply IH. exact Hs.
Qed.

Lemma anyByte_drop_str (s : string) :
  Spec.anyByte P s = false -> forall n, Spec.anyByte P (drop_str n s) = false.
Proof.
  induction s as [|x s IH]; intros Hs n.
  - destruct n; reflexivity.
  - destruct n as [|n]; [exact Hs|]. cbn [drop_str].
    cbn [Spec.anyByte] in Hs. apply orb_false_iff in Hs as [_ Hs]. apply IH. exact Hs.
Qed.

(** Cutting a string cannot bring in a byte it did not hold. *)
Lemma genSplit_keeps_absent (sep : string) (cuts : nat) :
  forall s, Spec.anyByte P s = false ->
            Forall (fun piece => Spec.anyByte P piece = false) (genSplit cuts s sep).
Proof.
  induction cuts as [|k IH]; intros s Hs; cbn [genSplit].
  - constructor; [exact Hs|constructor].
  - destruct (index_nat s sep) as [m|]; [|constructor; [exact Hs|constructor]].
    constructor; [apply anyByte_substring; exact Hs|].
    apply IH. apply anyByte_drop_str. exact Hs.
Qed.

End Pieces.

Section Separator.

Variable c : ascii.

Let sep : string := String c EmptyString.

Lemma index_nat_byte_found (s : string) (m : nat) :
  index_nat s sep = Some m ->
  Spec.anyByte (Ascii.eqb c) (String.substring 0 m s) = false
  /\ (String.length (drop_str (m + 1) s) < String.length s)%nat.
Proof.
  revert m. induction s as [|a s IH]; intros m.
  - cbn. discriminate.
  - unfold sep. rewrite index_nat_byte_cons. destruct (Ascii.eqb c a) eqn:Ha.
    + intros [= <-]. cbn. split; [reflexivity|].
      clear. induction s; cbn; lia.
    + fold sep. destruct (index_nat s sep) as [k|]; cbn [option_map]; [|discriminate].
      intros [= <-]. destruct (IH k eq_refl) as [H1 H2].
      cbn [String.substring Spec.anyByte Nat.add drop_str String.length].
      rewrite Ha, H1. split; [reflexivity|lia].
Qed.

(** With enough rounds, no piece of a split holds the separator. *)
Lemma genSplit_pieces_clean (cuts : nat) :
  forall s, (String.length s <= cuts)%nat ->
            Forall (fun piece => Spec.anyByte (Ascii.eqb c) piece = false)
                   (genSplit cuts s sep).
Proof.
  induction cuts as [|k IH]; intros s Hlen; cbn [genSplit].
  - destruct s; [|cbn in Hlen; lia]. constructor; [reflexivity|constructor].
  - destruct (index_nat s sep) as [m|] eqn:Hm.
    + destruct (index_nat_byte_found s m Hm) as [H1 H2].
      constructor; [exact H1|]. apply IH. unfold sep. cbn [String.length].
      fold sep. lia.
    + constructor; [|constructor]. apply index_nat_byte_none. exact Hm.
Qed.

End Separator.

Lemma firstNonEmpty_In (l : list string) :
  firstNonEmpty l = "" \/ In (firstNonEmpty l) l.
Proof.
  induction l as [|x l IH]; cbn [firstNonEmpty]; [left; reflexivity|].
  destruct (String.eqb x ""); [|right; left; reflexivity].
  destruct IH as [H|H]; [left; exact H|right; right; exact H].
Qed.

Lemma extractSlug_total (url : string) : exists slug, extractSlug url = Return slug.
Proof.
  unfold extractSlug. destruct (SplitN_two_head url) as [u ->]. eauto.
Qed.

(** X10. [extractSlug] always returns, and the slug it returns holds
    neither a slash nor a question mark. *)
Theorem extractSlug_clean (url : string) :
  exists slug,
    extractSlug url = Return slug
    /\ Contains slug "/" = false
    /\ Contains slug "?" = false.
Proof.
  unfold extractSlug.
  assert (Hu : exists u, SplitN url "?" 2 !! 0%nat = Some u
                         /\ Spec.anyByte (Ascii.eqb "?") u = false).
  { change (SplitN url "?" 2) with (genSplit 1 url "?"). cbn [genSplit].
    destruct (index_nat url "?") as [m|] eqn:Hm.
    - exists (String.substring 0 m url). split; [reflexivity|].
      apply (index_nat_byte_found "?" url m Hm).
    - exists url. split; [reflexivity|]. apply index_nat_byte_none. exact Hm. }
  destruct Hu as (u & -> & Hq). eexists. split; [reflexivity|].
  rewrite !Contains_byte. unfold slugOfParts.
  destruct (firstNonEmpty_In (rev (Split u "/"))) as [->|Hin]; [split; reflexivity|].
  apply in_rev in Hin. split.
  - pose proof (genSplit_pieces_clean "/" (String.length u) u (le_n _)) as Hall.
    rewrite Forall_forall in Hall. apply Hall.
    apply list_elem_of_In. exact Hin.
  - pose proof (genSplit_keeps_absent (Ascii.eqb "?") "/" (String.length u) u Hq) as Hall.
    rewrite Forall_forall in Hall. apply Hall.
    apply list_elem_of_In. exact Hin.
Qed.

Example extractSlug_talk :
  extractSlug "https://www.ted.com/talks/test_slug/?language=zh-cn" = Return "test_slug".
Proof. reflexivity. Qed.

(* ===================================================================== *)
(** * What [ParseURL] sends and where an empty talk can come from        *)
(* ===================================================================== *)




(** X12. A talk that [ParseURL] returns without any video URL, subtitle
    URL or video format was built by the structured-API path: the markup
    fallback never hands back such a talk. *)
Theorem ParseURL_empty_only_from_API (E : Env) (p : Parser) (url : string)
    (st st' : State) (talk : Talk) :
  ParseURL E p url st = (Return (Ok talk), st') ->
  Spec.hasData talk
  \/ exists slug,
       extractSlug url = Return slug
       /\ parseWithGraphQL E p slug url st = (Return (Ok talk), st').
Proof.
  unfold ParseURL, extractSlug.
  destruct (SplitN url "?" 2 !! 0%nat) as [u|]; [|discriminate].
  destruct (invalidURL _ u); [discriminate|]. unfold bind.
  destruct (parseWithGraphQL E p _ url st) as [[[t|e]|] st1] eqn:Hg; try discriminate.
  - intros [= <- <-]. right. eexists. split; [reflexivity|exact Hg].
  - intros Hh. left. eapply parseWithHTML_hasData. exact Hh.
Qed.

Lemma ParseURL_empty_only_from_API_witness :
  exists talk st',
    ParseURL (Samples.site Samples.api_errors (Response 200 (Decoded Samples.talk_page)))
             New Samples.test_url initial = (Return (Ok talk), st')
    /\ (Spec.hasData talk
        \/ exists slug,
             extractSlug Samples.test_url = Return slug
             /\ parseWithGraphQL
                  (Samples.site Samples.api_errors (Response 200 (Decoded Samples.talk_page)))
                  New slug Samples.test_url initial = (Return (Ok talk), st')).
Proof.
  eexists _, _. split; [vm_compute; reflexivity|].
  eapply (ParseURL_empty_only_from_API
            (Samples.site Samples.api_errors (Response 200 (Decoded Samples.talk_page)))
            New Samples.test_url initial).
  vm_compute. reflexivity.
Defined.

(* ===================================================================== *)
(** * Looking a talk up by its title                                     *)
(* ===================================================================== *)

(** Past the limit the loop does nothing. *)
Lemma eachEntry_past_limit (E : Env) (p : Parser) (limit : Z) (l : list ListingEntry) :
  forall i ts w, limit <= i -> eachEntry E p limit i l ts w = (Return ts, w).
Proof.
  induction l as [|y l IH]; intros i ts w Hi; [reflexivity|].
  cbn [eachEntry]. unfold bind, entryStep.
  replace (limit <=? i) with true by (symmetry; apply Z.leb_le; lia).
  unfold ret. apply IH. lia.
Qed.

(** X13. [ParseTalkDetails] asks for one block of the listing. When the
    listing page has no block it reports that no talk was found, having
    sent that one request only. Otherwise it resolves the URL of the
    first block with [ParseURL] and returns what [ParseURL] returns: the
    media found while searching are dropped. *)
Theorem ParseTalkDetails_first_block (E : Env) (p : Parser) (title : string)
    (st : State) (status : Z) (doc : Document) (url : string) :
  url = (if Spec.hasSpace title
         then baseURL +:+ "/search?q=" +:+ map_str Spec.plusForSpace title
         else baseURL +:+ "/talks?topics[]=" +:+ title) ->
  servePage E (ClientGet url :: requests st) = Response status (Decoded doc) ->
  (listing doc = [] ->
   ParseTalkDetails E p title st
   = (Return (inl (ErrNoTalkFound title)),
      mkState (ClientGet url :: requests st) (stdout st)))
  /\ (forall s rest t oe st1,
        listing doc = s :: rest ->
        parseTalkDetails E p (entryTalk s)
          (mkState (ClientGet url :: requests st) (stdout st)) = (Return (t, oe), st1) ->
        ParseTalkDetails E p title st
        = match ParseURL E p (URL (entryTalk s))
                  (mkState (requests st1)
                     (match oe with
                      | Some err => Warning (URL (entryTalk s)) err :: stdout st1
                      | None => stdout st1
                      end)) with
          | (Return (Ok talk), st2) => (Return (inr talk), st2)
          | (Return (Fail e), st2) => (Return (inl (ErrParseURL e)), st2)
          | (Panicked, st2) => (Panicked, st2)
          end).
Proof.
  intros Hurl Hpage.
  assert (Htopic : ParseTopic E p title 1 st = parseTalksList E p url 1 st).
  { subst url. unfold ParseTopic. rewrite Contains_space, ReplaceAll_space.
    destruct (Spec.hasSpace title); reflexivity. }
  split.
  - intros Hnone. unfold ParseTalkDetails, bind. rewrite Htopic.
    unfold parseTalksList, bind, clientGet, ret; cbn. rewrite Hpage, Hnone. reflexivity.
  - intros s rest t oe st1 Hlist Hd.
    pose proof (parseTalkDetails_stub E p _ _ _ _ _ Hd) as [(_ & _ & Hsame) _].
    unfold ParseTalkDetails, bind. rewrite Htopic.
    unfold parseTalksList, bind, clientGet, ret; cbn [fst snd]. cbv beta iota zeta.
    rewrite Hpage, Hlist. cbn [eachEntry]. unfold bind, entryStep.
    cbn [Z.leb Z.compare]. unfold bind. rewrite Hd. cbn [fst snd].
    assert (Hrest : forall ts w, eachEntry E p 1 (0 + 1) rest ts w = (Return ts, w))
      by (intros; apply eachEntry_past_limit; lia).
    destruct st1 as [rq so].
    destruct oe as [err|]; unfold print, ret; cbn [fst snd requests stdout];
      rewrite Hrest; cbn [app]; rewrite <- Hsame;
      destruct (ParseURL E p (URL (entryTalk s)) _) as [[[talk|e]|] st2]; reflexivity.
Qed.

Lemma ParseTalkDetails_first_block_witness :
  ParseTalkDetails Samples.listing_site New "education" initial
  = match ParseURL Samples.listing_site New (URL (entryTalk Samples.entry_john))
            (mkState [ClientGet "https://www.ted.com/talks/john_doe_power_of_education";
                      ClientGet Samples.listing_url]
                     [Warning (URL (entryTalk Samples.entry_john))
                              (ErrFetchTalkPage "timeout")]) with
    | (Return (Ok talk), st2) => (Return (inr talk), st2)
    | (Return (Fail e), st2) => (Return (inl (ErrParseURL e)), st2)
    | (Panicked, st2) => (Panicked, st2)
    end.
Proof.
  refine (proj2 (ParseTalkDetails_first_block Samples.listing_site New "education" initial
                   200 Samples.listing_page Samples.listing_url eq_refl eq_refl)
                Samples.entry_john [Samples.entry_jane]
                (entryTalk Samples.entry_john) (Some (ErrFetchTalkPage "timeout"))
                (mkState [ClientGet "https://www.ted.com/talks/john_doe_power_of_education";
                          ClientGet Samples.listing_url] [])
                eq_refl _).
  vm_compute. reflexivity.
Defined.

(* ===================================================================== *)
(** * The retrying downloads                                             *)
(* ===================================================================== *)

Lemma countGets_app (a b : list Downloader.Event) :
  Spec2.countGets (a ++ b) = (Spec2.countGets a + Spec2.countGets b)%nat.
Proof.
  induction a as [|e a IH]; [reflexivity|].
  destruct e; cbn [app Spec2.countGets]; rewrite IH; reflexivity.
Qed.

Section Attempts.

Variables (Sy : Downloader.Sys) (k : Downloader.Kind) (url filename : string).

(** The loop reports success only from a round whose GET was answered
    200 and copied whole; the file then holds that body. *)
Lemma attempts_None (n : nat) :
  forall lastErr dk dk',
    Downloader.attempts Sy k url filename n lastErr dk = (None, dk') ->
    (n = O /\ lastErr = None /\ dk' = dk)
    \/ exists line body earlier,
         Downloader.events dk' = Downloader.Get url :: earlier
         /\ Downloader.get Sy (Downloader.events dk') = Downloader.Fetch 200 line body None
         /\ Downloader.files dk' !! filename = Some body.
Proof.
  induction n as [|n IH]; intros lastErr dk dk'; cbn [Downloader.attempts].
  - intros [= -> ->]. left. repeat split.
  - destruct (Downloader.create Sy _); [discriminate|].
    destruct (Downloader.get Sy _) as [cause|status line body stops] eqn:Hget.
    + intros H. apply IH in H as [(_ & Hle & _)|H]; [discriminate|right; exact H].
    + destruct (Z.eqb_spec status 200) as [->|Hne]; cbn [negb].
      * destruct stops as [written|].
        -- intros H. apply IH in H as [(_ & Hle & _)|H]; [discriminate|right; exact H].
        -- intros [= <-]. right. cbn. eexists line, body, _.
           split; [reflexivity|]. split; [exact Hget|apply lookup_insert_eq].
      * intros H. apply IH in H as [(_ & Hle & _)|H]; [discriminate|right; exact H].
Qed.

(** A loop of [n] rounds sends at most [n] GETs. *)
Lemma attempts_events (n : nat) :
  forall lastErr dk,
    exists new,
      Downloader.events (snd (Downloader.attempts Sy k url filename n lastErr dk))
      = (new ++ Downloader.events dk)%list
      /\ (Spec2.countGets new <= n)%nat.
Proof.
  induction n as [|n IH]; intros lastErr dk; cbn [Downloader.attempts].
  - exists []. split; [reflexivity|cbn; lia].
  - destruct (Downloader.create Sy _).
    { exists [Downloader.Create filename]. split; [reflexivity|cbn; lia]. }
    assert (Hrec : forall le fs,
               exists new,
                 Downloader.events
                   (snd (Downloader.attempts Sy k url filename n le
                           (Downloader.mkDisk
                              (Downloader.Get url :: Downloader.Create filename
                                 :: Downloader.events dk) fs)))
                 = (new ++ Downloader.events dk)%list
                 /\ (Spec2.countGets new <= S n)%nat).
    { intros le fs. destruct (IH le (Downloader.mkDisk
                                      (Downloader.Get url :: Downloader.Create filename
                                         :: Downloader.events dk) fs)) as (new & Hn & Hc).
      exists (new ++ [Downloader.Get url; Downloader.Create filename])%list.
      rewrite Hn, <- app_assoc. split; [reflexivity|].
      rewrite countGets_app. cbn. lia. }
    destruct (Downloader.get Sy _) as [cause|status line body stops]; [apply Hrec|].
    destruct (negb (status =? 200)); [apply Hrec|].
    destruct stops; [apply Hrec|].
    exists [Downloader.Get url; Downloader.Create filename].
    split; [reflexivity|cbn; lia].
Qed.

(** When files can be made and no answer is a whole 200, every round is
    used, the last error is returned and the file is left empty or
    partial; with only refusals it is left empty. *)
Lemma attempts_refused (n : nat) :
  (forall log, Downloader.create Sy log = None) ->
  (forall log, match Downloader.get Sy log with
               | Downloader.Fetch status _ _ _ => status <> 200
               | Downloader.FetchError _ => True
               end) ->
  forall lastErr dk,
    (0 < n)%nat ->
    exists e new,
      Downloader.attempts Sy k url filename n lastErr dk
      = (Some e, Downloader.mkDisk (new ++ Downloader.events dk)%list
                                   (<[filename := ""]> (Downloader.files dk)))
      /\ Spec2.countGets new = n.
Proof.
  intros Hcreate Hget. induction n as [|n IH]; intros lastErr dk Hn; [lia|].
  cbn [Downloader.attempts]. rewrite Hcreate.
  assert (Hrec : forall le,
             exists e new,
               Downloader.attempts Sy k url filename n (Some le)
                 (Downloader.mkDisk
                    (Downloader.Get url :: Downloader.Create filename :: Downloader.events dk)
                    (<[filename := ""]> (Downloader.files dk)))
               = (Some e, Downloader.mkDisk (new ++ Downloader.events dk)%list
                                            (<[filename := ""]> (Downloader.files dk)))
               /\ Spec2.countGets new = S n).
  { intros le. destruct n as [|n'].
    - exists le, [Downloader.Get url; Downloader.Create filename].
      split; reflexivity.
    - destruct (IH (Some le)
                   (Downloader.mkDisk
                      (Downloader.Get url :: Downloader.Create filename
                         :: Downloader.events dk)
                      (<[filename := ""]> (Downloader.files dk))) ltac:(lia))
        as (e & new & Hrun & Hc).
      exists e, (new ++ [Downloader.Get url; Downloader.Create filename])%list.
      rewrite Hrun. cbn [Downloader.events Downloader.files].
      rewrite insert_insert_eq, <- app_assoc. split; [reflexivity|].
      rewrite countGets_app, Hc. cbn. lia. }
  pose proof (Hget (Downloader.Get url :: Downloader.Create filename
                      :: Downloader.events dk)) as Hg.
  destruct (Downloader.get Sy _) as [cause|status line body stops]; [apply Hrec|].
  replace (negb (status =? 200)) with true
    by (symmetry; apply negb_true_iff, Z.eqb_neq; exact Hg).
  apply Hrec.
Qed.

End Attempts.

(** X14. When [DownloadVideo] or [DownloadSubtitle], with at least one
    round allowed, returns no error, the last thing it did was a GET of
    the URL that was answered with status 200 and copied to the end, and
    the file holds exactly the body of that answer. *)
Theorem download_success (Sy : Downloader.Sys) (k : Downloader.Kind)
    (d : Downloader.Downloader) (url filename : string) (dk dk' : Downloader.Disk) :
  0 < Downloader.maxRetries d ->
  Downloader.download Sy k d url filename dk = (None, dk') ->
  exists line body earlier,
    Downloader.events dk' = Downloader.Get url :: earlier
    /\ Downloader.get Sy (Downloader.events dk') = Downloader.Fetch 200 line body None
    /\ Downloader.files dk' !! filename = Some body.
Proof.
  intros Hmax. unfold Downloader.download.
  destruct (Downloader.mkdirAll Sy _); [discriminate|].
  intros H. apply attempts_None in H as [(Hn & _)|H]; [lia|exact H].
Qed.

Lemma download_success_witness :
  exists line body earlier,
    Downloader.events
      (snd (Downloader.DownloadVideo (Samples2.sys Samples2.content) Samples2.three
              "https://example.com/video/720p.mp4" "downloads/test_slug/720p.mp4"
              Downloader.blank))
    = Downloader.Get "https://example.com/video/720p.mp4" :: earlier
    /\ Downloader.get (Samples2.sys Samples2.content)
         (Downloader.events
            (snd (Downloader.DownloadVideo (Samples2.sys Samples2.content) Samples2.three
                    "https://example.com/video/720p.mp4" "downloads/test_slug/720p.mp4"
                    Downloader.blank)))
       = Downloader.Fetch 200 line body None
    /\ Downloader.files
         (snd (Downloader.DownloadVideo (Samples2.sys Samples2.content) Samples2.three
                 "https://example.com/video/720p.mp4" "downloads/test_slug/720p.mp4"
                 Downloader.blank))
       !! "downloads/test_slug/720p.mp4" = Some body.
Proof.
  apply (download_success (Samples2.sys Samples2.content) Downloader.Video Samples2.three
           "https://example.com/video/720p.mp4" "downloads/test_slug/720p.mp4"
           Downloader.blank).
  - reflexivity.
  - vm_compute. reflexivity.
Defined.

(** The download of the package's test: one round, the content on disk. *)
Example download_test_content :
  exists dk',
    Downloader.DownloadVideo (Samples2.sys Samples2.content) Samples2.three
      "https://example.com/video/720p.mp4" "downloads/test_slug/720p.mp4" Downloader.blank
    = (None, dk')
    /\ Downloader.files dk' !! "downloads/test_slug/720p.mp4" = Some "test content"
    /\ Downloader.events dk'
       = [Downloader.Get "https://example.com/video/720p.mp4";
          Downloader.Create "downloads/test_slug/720p.mp4";
          Downloader.MkdirAll "downloads/test_slug"].
Proof. eexists. repeat split; vm_compute; reflexivity. Qed.

(** X15. A download never sends more GETs than the downloader has
    rounds: three for a downloader made by [New]. Earlier events are
    kept. *)
Theorem download_bounded (Sy : Downloader.Sys) (k : Downloader.Kind)
    (d : Downloader.Downloader) (url filename : string) (dk : Downloader.Disk) :
  exists new,
    Downloader.events (snd (Downloader.download Sy k d url filename dk))
    = (new ++ Downloader.events dk)%list
    /\ (Spec2.countGets new <= Z.to_nat (Downloader.maxRetries d))%nat
    /\ forall dir dk0 dk1 d',
         Downloader.New Sy dir dk0 = (inr d', dk1) ->
         Downloader.maxRetries d' = 3.
Proof.
  unfold Downloader.download.
  assert (Hnew : forall dir dk0 dk1 d',
             Downloader.New Sy dir dk0 = (inr d', dk1) -> Downloader.maxRetries d' = 3).
  { intros dir dk0 dk1 d'. unfold Downloader.New.
    destruct (Downloader.mkdirAll Sy _); [discriminate|]. intros [= <- _]. reflexivity. }
  destruct (Downloader.mkdirAll Sy _).
  - exists [Downloader.MkdirAll (Downloader.Dir Sy filename)].
    split; [reflexivity|]. split; [cbn; lia|exact Hnew].
  - destruct (attempts_events Sy k url filename (Z.to_nat (Downloader.maxRetries d)) None
                (Downloader.mkDisk
                   (Downloader.MkdirAll (Downloader.Dir Sy filename) :: Downloader.events dk)
                   (Downloader.files dk))) as (new & Hn & Hc).
    exists (new ++ [Downloader.MkdirAll (Downloader.Dir Sy filename)])%list.
    rewrite Hn, <- app_assoc. split; [reflexivity|]. split; [|exact Hnew].
    rewrite countGets_app. cbn. lia.
Qed.

(** X16. When directories and files can be made and every GET is either
    refused by the transport or answered with a status other than 200 (a
    404, but also a 201 or a 206), a download with at least one round
    returns an error after using every round, one GET each, and leaves
    the file behind, empty. *)
Theorem download_refused (Sy : Downloader.Sys) (k : Downloader.Kind)
    (d : Downloader.Downloader) (url filename : string) (dk : Downloader.Disk) :
  (forall log, Downloader.mkdirAll Sy log = None) ->
  (forall log, Downloader.create Sy log = None) ->
  (forall log, match Downloader.get Sy log with
               | Downloader.Fetch status _ _ _ => status <> 200
               | Downloader.FetchError _ => True
               end) ->
  0 < Downloader.maxRetries d ->
  exists e new,
    Downloader.download Sy k d url filename dk
    = (Some e, Downloader.mkDisk (new ++ Downloader.events dk)%list
                                 (<[filename := ""]> (Downloader.files dk)))
    /\ Spec2.countGets new = Z.to_nat (Downloader.maxRetries d).
Proof.
  intros Hmk Hcreate Hget Hmax. unfold Downloader.download. rewrite Hmk.
  destruct (attempts_refused Sy k url filename (Z.to_nat (Downloader.maxRetries d))
              Hcreate Hget None
              (Downloader.mkDisk
                 (Downloader.MkdirAll (Downloader.Dir Sy filename) :: Downloader.events dk)
                 (Downloader.files dk)) ltac:(lia)) as (e & new & Hrun & Hc).
  exists e, (new ++ [Downloader.MkdirAll (Downloader.Dir Sy filename)])%list.
  rewrite Hrun. cbn [Downloader.events Downloader.files]. rewrite <- app_assoc.
  split; [reflexivity|]. rewrite countGets_app, Hc. cbn. lia.
Qed.

Lemma download_refused_witness :
  exists e new,
    Downloader.download (Samples2.sys Samples2.not_found) Downloader.Video Samples2.three
      "https://example.com/video/720p.mp4" "downloads/test_slug/720p.mp4" Downloader.blank
    = (Some e, Downloader.mkDisk (new ++ [])%list
                                 (<["downloads/test_slug/720p.mp4" := ""]> ∅))
    /\ Spec2.countGets new = Z.to_nat 3.
Proof.
  apply (download_refused (Samples2.sys Samples2.not_found) Downloader.Video Samples2.three
           "https://example.com/video/720p.mp4" "downloads/test_slug/720p.mp4"
           Downloader.blank).
  - reflexivity.
  - reflexivity.
  - intros log. cbn. discriminate.
  - reflexivity.
Defined.

(* ===================================================================== *)
(** * The download command                                               *)
(* ===================================================================== *)

(** X17. Given a title (an argument that does not begin with [http]),
    [runDownload] reads [talk.URL] before it looks at the error of the
    lookup. When the lookup fails the talk is nil and the command panics:
    for a title it never returns the error "failed to parse talk
    details". *)
Theorem runDownload_title_failure (E : Env) (Sy : Downloader.Sys) (f : Cmd.Flags)
    (title : string) (rest : list string) (w : Cmd.World) :
  HasPrefix title "http" = false ->
  (forall e st,
      Downloader.mkdirAll Sy (Downloader.MkdirAll (Cmd.output f)
                                :: Downloader.events (Cmd.disk w)) = None ->
      ParseTalkDetails E New title (Cmd.net w) = (Return (inl e), st) ->
      fst (Cmd.runDownload E Sy f (title :: rest) w) = Panicked)
  /\ forall e w',
       Cmd.runDownload E Sy f (title :: rest) w
       <> (Return (Some (Cmd.ErrParseTalkDetails e)), w').
Proof.
  intros Htitle. unfold Cmd.runDownload, Downloader.New. rewrite Htitle. split.
  - intros e st Hmk Hfail. rewrite Hmk, Hfail. reflexivity.
  - intros e w'. destruct (Downloader.mkdirAll Sy _); [discriminate|].
    destruct (ParseTalkDetails E New title (Cmd.net w)) as [[[e0|talk]|] st];
      try discriminate.
    destruct (extractSlug (URL talk)) as [slug|]; [|discriminate].
    destruct (Cmd.fetchMedia Sy f _ talk slug _) as [err w1] eqn:Hf.
    intros [= -> _]. revert Hf. unfold Cmd.fetchMedia.
    destruct (Spec.mapget (VideoURLs talk) _); [|discriminate].
    destruct (Downloader.DownloadVideo Sy _ _ _ _) as [[e1|] dk1]; [discriminate|].
    destruct (negb _); [|discriminate].
    destruct (Spec.mapget (SubtitleURLs talk) _); [|discriminate].
    destruct (Downloader.DownloadSubtitle Sy _ _ _ _) as [[e2|] dk2]; discriminate.
Qed.

Lemma runDownload_title_failure_witness :
  fst (Cmd.runDownload Samples2.empty_listing_site (Samples2.sys Samples2.content)
         Samples2.flags ["education"] Samples2.start) = Panicked.
Proof.
  refine (proj1 (runDownload_title_failure Samples2.empty_listing_site
                   (Samples2.sys Samples2.content) Samples2.flags "education" []
                   Samples2.start eq_refl)
                (ErrNoTalkFound "education")
                (mkState [ClientGet "https://www.ted.com/talks?topics[]=education"] [])
                eq_refl _).
  vm_compute. reflexivity.
Defined.

(** X18. Given a URL that [ParseURL] resolves to a talk without the
    requested quality, [runDownload] returns the quality error and has
    downloaded nothing: the disk has seen the creation of the output
    directory and no other event, and no file has changed. *)
Theorem runDownload_missing_quality (E : Env) (Sy : Downloader.Sys) (f : Cmd.Flags)
    (url : string) (rest : list string) (w : Cmd.World) (talk : Talk) (st : State) :
  HasPrefix url "http" = true ->
  Downloader.mkdirAll Sy (Downloader.MkdirAll (Cmd.output f)
                            :: Downloader.events (Cmd.disk w)) = None ->
  ParseURL E New url (Cmd.net w) = (Return (Ok talk), st) ->
  Spec.mapget (VideoURLs talk) (Cmd.quality f) = None ->
  Cmd.runDownload E Sy f (url :: rest) w
  = (Return (Some (Cmd.ErrQuality (Cmd.quality f))),
     Cmd.mkWorld st
       (Downloader.mkDisk (Downloader.MkdirAll (Cmd.output f)
                             :: Downloader.events (Cmd.disk w))
                          (Downloader.files (Cmd.disk w)))
       (Cmd.console w)).
Proof.
  intros Hurl Hmk Hparse Hq. unfold Cmd.runDownload, Downloader.New.
  rewrite Hmk, Hurl, Hparse.
  destruct (extractSlug_total url) as [slug ->].
  unfold Cmd.fetchMedia. rewrite Hq. reflexivity.
Qed.

Lemma runDownload_missing_quality_witness :
  Cmd.runDownload
    (Samples.site (Samples.api_node []) (Response 200 (Decoded Samples.bare_page)))
    (Samples2.sys Samples2.content) Samples2.flags [Samples.test_url] Samples2.start
  = (Return (Some (Cmd.ErrQuality "720p")),
     Cmd.mkWorld
       (mkState [HttpGet Samples.test_url;
                 GraphQLPost "https://www.ted.com/graphql" "test_slug" Samples.test_url] [])
       (Downloader.mkDisk [Downloader.MkdirAll "downloads"] ∅)
       []).
Proof.
  apply (runDownload_missing_quality
           (Samples.site (Samples.api_node []) (Response 200 (Decoded Samples.bare_page)))
           (Samples2.sys Samples2.content) Samples2.flags Samples.test_url []
           Samples2.start
           (mkTalk "Test Title" "Test Speaker" Samples.test_url "" "" "" ""
                   (Some ∅) [] (Some ∅))).
  - reflexivity.
  - reflexivity.
  - vm_compute. reflexivity.
  - reflexivity.
Defined.

(** X19. With [--subtitle zh-CN], the language code of the command's own
    help text, a talk resolved by the structured-API path can never be
    downloaded in full: the keys of its [SubtitleURLs] are lower-case, so
    the command never returns without an error, and when the video
    quality is there and the video has been downloaded it stops with
    "subtitle language zh-CN not available", the video already on
    disk. *)
Theorem runDownload_capital_subtitle (E : Env) (Sy : Downloader.Sys) (f : Cmd.Flags)
    (url u : string) (rest : list string) (w : Cmd.World) (talk : Talk) (st : State) :
  HasPrefix url "http" = true ->
  Cmd.subtitle f = "zh-CN" ->
  SplitN url "?" 2 !! 0%nat = Some u ->
  invalidURL (slugOfParts (Split u "/")) u = false ->
  parseWithGraphQL E New (slugOfParts (Split u "/")) url (Cmd.net w)
    = (Return (Ok talk), st) ->
  (exists e w', Cmd.runDownload E Sy f (url :: rest) w = (Return (Some e), w'))
  /\ forall videoURL dk1,
       Downloader.mkdirAll Sy (Downloader.MkdirAll (Cmd.output f)
                                 :: Downloader.events (Cmd.disk w)) = None ->
       Spec.mapget (VideoURLs talk) (Cmd.quality f) = Some videoURL ->
       Downloader.DownloadVideo Sy (Downloader.mkDownloader (Cmd.output f) 3) videoURL
         (Downloader.GetDownloadPath Sy (Downloader.mkDownloader (Cmd.output f) 3)
            (slugOfParts (Split u "/")) (Cmd.quality f +:+ ".mp4"))
         (Downloader.mkDisk (Downloader.MkdirAll (Cmd.output f)
                               :: Downloader.events (Cmd.disk w))
                            (Downloader.files (Cmd.disk w)))
       = (None, dk1) ->
       Cmd.runDownload E Sy f (url :: rest) w
       = (Return (Some (Cmd.ErrSubtitle "zh-CN")),
          Cmd.mkWorld st dk1 (Cmd.DownloadingVideo (Cmd.quality f) :: Cmd.console w)).
Proof.
  intros Hurl Hsub Hu Hvalid Hapi.
  assert (Hparse : ParseURL E New url (Cmd.net w) = (Return (Ok talk), st)).
  { unfold ParseURL. rewrite Hu, Hvalid. unfold bind. rewrite Hapi. reflexivity. }
  assert (Hnone : Spec.mapget (SubtitleURLs talk) "zh-CN" = None).
  { apply parseWithGraphQL_Ok in Hapi
      as (status & res & node & rest0 & status' & doc & _ & _ & _ & _ & -> & _).
    cbn [Spec.mapget SubtitleURLs]. rewrite subtitle_fold_lookup.
    unfold Spec.lastSubtitleFor.
    destruct (Spec.findLast _ _) as [d|] eqn:Hd; [|reflexivity].
    apply findLast_Some in Hd as [_ HP]. apply andb_true_iff in HP as [_ H2].
    apply String.eqb_eq in H2.
    assert (Hid : ToLower "zh-CN" = "zh-CN") by (rewrite <- H2; apply ToLower_idem).
    vm_compute in Hid. discriminate. }
  assert (Hslug : extractSlug url = Return (slugOfParts (Split u "/")))
    by (unfold extractSlug; rewrite Hu; reflexivity).
  unfold Cmd.runDownload, Downloader.New. rewrite Hurl, Hparse, Hslug. split.
  - destruct (Downloader.mkdirAll Sy _); [eauto|].
    unfold Cmd.fetchMedia.
    destruct (Spec.mapget (VideoURLs talk) _); [|eauto].
    destruct (Downloader.DownloadVideo Sy _ _ _ _) as [[e1|] dk1]; [eauto|].
    rewrite Hsub, Hnone. cbn. eauto.
  - intros videoURL dk1 Hmk Hq Hdl. rewrite Hmk. unfold Cmd.fetchMedia.
    cbn [Cmd.disk Cmd.net Cmd.console]. rewrite Hq, Hdl, Hsub, Hnone. reflexivity.
Qed.

Lemma runDownload_capital_subtitle_witness :
  exists e w',
    Cmd.runDownload
      (Samples.site (Samples.api_node Samples.subs_en_zh)
                    (Response 200 (Decoded Samples.bare_page)))
      (Samples2.sys Samples2.content) (Cmd.mkFlags "720p" "zh-CN" "downloads")
      [Samples.test_url] Samples2.start
    = (Return (Some e), w').
Proof.
  refine (proj1 (runDownload_capital_subtitle
                   (Samples.site (Samples.api_node Samples.subs_en_zh)
                                 (Response 200 (Decoded Samples.bare_page)))
                   (Samples2.sys Samples2.content) (Cmd.mkFlags "720p" "zh-CN" "downloads")
                   Samples.test_url Samples.test_url [] Samples2.start _ _
                   eq_refl eq_refl eq_refl eq_refl _)).
  vm_compute. reflexivity.
Defined.

(** The run of the witness: the video is on disk, the subtitle is not
    found although the talk has one for [zh-cn]. *)
Example capital_subtitle_run :
  exists w',
    Cmd.runDownload
      (Samples.site (Samples.api_node Samples.subs_en_zh)
                    (Response 200 (Decoded Samples.bare_page)))
      (Samples2.sys Samples2.content) (Cmd.mkFlags "720p" "zh-CN" "downloads")
      [Samples.test_url] Samples2.start
    = (Return (Some (Cmd.ErrSubtitle "zh-CN")), w')
    /\ Downloader.files (Cmd.disk w') !! "downloads/test_slug/720p.mp4"
       = Some "test content".
Proof. eexists. split; vm_compute; reflexivity. Qed.

(* ===================================================================== *)
(** * The page fetch after an API success                                *)
(* ===================================================================== *)

(** X21. For a valid URL whose API call gave a node, a failure of the
    page fetch that follows is not handed to the markup fallback when it
    comes with a nil response, as every failure but a refused redirect
    does: the deferred closure of the API response then dereferences nil
    and [ParseURL] panics after its two calls. Only the error of a
    refused redirect, which comes with a response, leads on to the
    fallback. *)
Theorem ParseURL_page_fetch_failure (E : Env) (p : Parser) (url u : string) (st : State)
    (status : Z) (res : GraphQLResult) (node : Node) (rest : list Node) (cause : string) :
  SplitN url "?" 2 !! 0%nat = Some u ->
  invalidURL (slugOfParts (Split u "/")) u = false ->
  serveGraphQL E (GraphQLPost (GraphqlURL p) (slugOfParts (Split u "/")) url :: requests st)
    = Response status (Decoded res) ->
  Errors res = [] ->
  Nodes res = node :: rest ->
  servePage E (HttpGet url
                 :: GraphQLPost (GraphqlURL p) (slugOfParts (Split u "/")) url
                 :: requests st)
    = TransportError cause ->
  ParseURL E p url st
  = if refused E (HttpGet url
                    :: GraphQLPost (GraphqlURL p) (slugOfParts (Split u "/")) url
                    :: requests st)
    then parseWithHTML E p url
           (mkState (HttpGet url
                       :: GraphQLPost (GraphqlURL p) (slugOfParts (Split u "/")) url
                       :: requests st) (stdout st))
    else (Panicked,
          mkState (HttpGet url
                     :: GraphQLPost (GraphqlURL p) (slugOfParts (Split u "/")) url
                     :: requests st) (stdout st)).
Proof.
  intros Hu Hvalid Hg He Hn Hpage. unfold ParseURL. rewrite Hu, Hvalid.
  unfold bind at 1.
  unfold parseWithGraphQL, bind, clientDo, httpGet, history, ret, lift; cbn.
  rewrite Hg, He, Hn. cbn. rewrite Hpage.
  destruct (refused E _); reflexivity.
Qed.

Lemma ParseURL_page_fetch_failure_witness :
  ParseURL (Samples.site (Samples.api_node Samples.subs_en_zh) (TransportError "timeout"))
           New Samples.test_url initial
  = (Panicked,
     mkState [HttpGet Samples.test_url;
              GraphQLPost "https://www.ted.com/graphql" "test_slug" Samples.test_url] []).
Proof.
  apply (ParseURL_page_fetch_failure
           (Samples.site (Samples.api_node Samples.subs_en_zh) (TransportError "timeout"))
           New Samples.test_url Samples.test_url initial 200
           (mkGraphQLResult [mkNode Samples.no_native Samples.subs_en_zh] [])
           (mkNode Samples.no_native Samples.subs_en_zh) [] "timeout");
    reflexivity.
Defined.
